(** * House exterior design: region classification, style resolution, compositing

    A shallow embedding of [src/python/seg.py] and of its copy
    [src/python/scripts/seg.py].

    Python floats and NumPy [float64] values are IEEE-754 binary64 numbers;
    they are embedded as Rocq's primitive floats, which are the same format
    with the same round-to-nearest-even operations.  NumPy [int64] values
    and Python integers are embedded as [Z]; every integer the program
    converts to a float is a pixel count, a coordinate or a sum of channel
    values, hence non-negative and below 2^63. *)

From Stdlib Require Import String Ascii ZArith List Bool Lia.
From Stdlib Require Import Uint63 PrimFloat SpecFloat FloatOps.
Import ListNotations.

Set Warnings "-inexact-float,-register-all".
Open Scope string_scope.
Open Scope list_scope.
Open Scope Z_scope.

(** ** Exceptions and the error monad *)

Inductive exn : Type :=
| IndexError
| KeyError
| ValueError
| AttributeError
| OverflowError
| CvError.

Inductive result (A : Type) : Type :=
| Ok (a : A)
| Raise (e : exn).
Arguments Ok {A} a.
Arguments Raise {A} e.

Definition bind {A B : Type} (m : result A) (k : A -> result B) : result B :=
  match m with
  | Ok a => k a
  | Raise e => Raise e
  end.

Notation "x <- m ;; k" := (bind m (fun x => k))
  (at level 61, m at next level, right associativity).
Notation "' p <- m ;; k" := (bind m (fun x => match x with p => k end))
  (at level 61, p pattern, m at next level, right associativity).

(** ** Numbers *)

(** Conversion of a non-negative integer below 2^63 to binary64,
    rounding to nearest even as NumPy and Python do. *)
Definition Z2F (z : Z) : float := PrimFloat.of_uint63 (Uint63.of_Z z).

(** ** Arrays *)

(** A pixel of a BGR image: [(b, g, r)]. *)
Definition Pixel : Type := Z * Z * Z.

(** An [H x W x 3] array of [uint8]. *)
Record Image : Type := {
  img_h : nat;
  img_w : nat;
  img_at : nat -> nat -> Pixel
}.

(** An [H x W] boolean array. *)
Record Mask : Type := {
  mask_h : nat;
  mask_w : nat;
  mask_at : nat -> nat -> bool
}.

(** One element of the list the mask generator returns. *)
Record MaskDict : Type := {
  segmentation : Mask
}.

(** [np.where(mask)]: the coordinates of the set pixels, in row-major order. *)
Definition np_where (mask : Mask) : list (nat * nat) :=
  filter (fun yx => mask_at mask (fst yx) (snd yx))
         (list_prod (seq 0 (mask_h mask)) (seq 0 (mask_w mask))).

(** The entry of the boolean array at [(y, x)]: [mask_at] inside the
    array, and no entry outside of it. *)
Definition mask_set (mask : Mask) (y x : nat) : bool :=
  (Nat.ltb y (mask_h mask) && Nat.ltb x (mask_w mask) && mask_at mask y x)%bool.

(** Whether NumPy accepts a boolean index of the shape of [mask] on the
    first two axes of [image]: an axis of the mask must have the length of
    the image's axis, except that an axis of length 0 is not checked.  An
    index that does not fit raises [IndexError]. *)
Definition axis_fits (axis mask_axis : nat) : bool :=
  (Nat.eqb mask_axis 0 || Nat.eqb axis mask_axis)%bool.

Definition index_fits (image : Image) (mask : Mask) : bool :=
  (axis_fits (img_h image) (mask_h mask)
   && axis_fits (img_w image) (mask_w mask))%bool.

(** [image[mask == 1]]: the pixels under the mask, in row-major order. *)
Definition getitem_mask (image : Image) (mask : Mask) : result (list Pixel) :=
  if index_fits image mask
  then Ok (map (fun yx => img_at image (fst yx) (snd yx)) (np_where mask))
  else Raise IndexError.

Definition chan_b (p : Pixel) : Z := fst (fst p).
Definition chan_g (p : Pixel) : Z := snd (fst p).
Definition chan_r (p : Pixel) : Z := snd p.

Definition zsum (l : list Z) : Z := fold_left Z.add l 0.

(** [np.mean(pixels, axis=0)] on [uint8] data: the channel sums are
    accumulated in binary64 (exactly, the values being small integers) and
    divided by the number of rows. *)
Definition np_mean (pixels : list Pixel) : float * float * float :=
  let n := Z2F (Z.of_nat (length pixels)) in
  ((Z2F (zsum (map chan_b pixels)) / n)%float,
   (Z2F (zsum (map chan_g pixels)) / n)%float,
   (Z2F (zsum (map chan_r pixels)) / n)%float).

(** [output_img[mask == 1] = color]: the pixels at the set entries of the
    mask are overwritten (none when the mask has an axis of length 0).
    The three values are first converted to [uint8], which under NumPy 2
    raises [OverflowError] for a value outside 0..255. *)
Definition u8 (z : Z) : bool := (0 <=? z) && (z <=? 255).

Definition setitem_mask (image : Image) (mask : Mask) (color : Pixel)
  : result Image :=
  if index_fits image mask then
    if u8 (chan_b color) && u8 (chan_g color) && u8 (chan_r color)
    then Ok {| img_h := img_h image;
               img_w := img_w image;
               img_at := fun y x =>
                 if mask_set mask y x then color else img_at image y x |}
    else Raise OverflowError
  else Raise IndexError.

(** [image.copy()] *)
Definition copy (image : Image) : Image :=
  {| img_h := img_h image; img_w := img_w image; img_at := img_at image |}.

(** ** Strings

    A string is a sequence of code points below 256. *)

(** [s.lstrip('#')] *)
Fixpoint lstrip_hash (s : string) : string :=
  match s with
  | String c s' => if Ascii.eqb c "#" then lstrip_hash s' else s
  | EmptyString => EmptyString
  end.

(** The characters [int] skips at both ends of its argument. *)
Definition is_space (c : ascii) : bool :=
  let n := nat_of_ascii c in
  ((Nat.leb 9 n && Nat.leb n 13) || Nat.eqb n 32 || Nat.eqb n 133
   || Nat.eqb n 160)%bool.

Definition hex_digit (c : ascii) : option Z :=
  let n := nat_of_ascii c in
  if (Nat.leb 48 n && Nat.leb n 57)%bool then Some (Z.of_nat n - 48)
  else if (Nat.leb 97 n && Nat.leb n 102)%bool then Some (Z.of_nat n - 87)
  else if (Nat.leb 65 n && Nat.leb n 70)%bool then Some (Z.of_nat n - 55)
  else None.

Fixpoint skip_spaces (l : list ascii) : list ascii :=
  match l with
  | c :: l' => if is_space c then skip_spaces l' else l
  | [] => []
  end.

(** Reads the longest prefix of hexadecimal digits: its value, if it is
    not empty, and the rest of the input. *)
Fixpoint read_digits (acc : option Z) (l : list ascii)
  : option Z * list ascii :=
  match l with
  | c :: l' =>
      match hex_digit c with
      | Some d =>
          read_digits (Some (16 * match acc with Some a => a | None => 0 end + d)) l'
      | None => (acc, l)
      end
  | [] => (acc, [])
  end.

(** [int(s, 16)] for a string [s] of at most two characters, which is all
    [hex_to_bgr] passes: optional spaces, an optional sign, at least one
    hexadecimal digit, optional spaces.  (The [0x] prefix and the
    underscore separators of the built-in need three characters to be
    accepted.) *)
Definition int_base16 (s : string) : result Z :=
  let l := skip_spaces (list_ascii_of_string s) in
  let '(negative, l) :=
    match l with
    | c :: l' =>
        if Ascii.eqb c "+" then (false, l')
        else if Ascii.eqb c "-" then (true, l')
        else (false, l)
    | [] => (false, l)
    end in
  match read_digits None l with
  | (Some n, rest) =>
      match skip_spaces rest with
      | [] => Ok (if negative then - n else n)
      | _ :: _ => Raise ValueError
      end
  | (None, _) => Raise ValueError
  end.

(** ** JSON values and dictionaries *)

Inductive json : Type :=
| JNull
| JBool (b : bool)
| JInt (z : Z)
| JFloat (f : float)
| JStr (s : string)
| JList (l : list json)
| JObj (m : list (string * json)).

(** A [dict] with string keys, in insertion order; a key occurs once. *)
Definition dict (V : Type) : Type := list (string * V).

Fixpoint dict_get {V : Type} (d : dict V) (k : string) : option V :=
  match d with
  | (k', v) :: d' => if String.eqb k' k then Some v else dict_get d' k
  | [] => None
  end.

(** [d.get(k, default)] *)
Definition get_default {V : Type} (d : dict V) (k : string) (default : V) : V :=
  match dict_get d k with
  | Some v => v
  | None => default
  end.

(** [d[k]] *)
Definition getitem {V : Type} (d : dict V) (k : string) : result V :=
  match dict_get d k with
  | Some v => Ok v
  | None => Raise KeyError
  end.

(** [for k in d] *)
Definition keys {V : Type} (d : dict V) : list string := map fst d.

(** The truth value of a list, and of the result of [d.get(k)], which is
    [None] when the key is absent. *)
Definition truthy {A : Type} (l : list A) : bool :=
  match l with
  | [] => false
  | _ :: _ => true
  end.

Definition truthy_opt {A : Type} (o : option (list A)) : bool :=
  match o with
  | Some l => truthy l
  | None => false
  end.

(** One style option as [json.load] returns it: an object whose fields are
    arbitrary JSON values. *)
Definition StyleRecord : Type := dict json.

(** The style library: region -> style name -> list of options.  The
    containers are those of the catalog file (an object of objects of
    lists of objects); what the fields of an option hold is not
    constrained. *)
Definition StyleLibrary : Type := dict (dict (list StyleRecord)).

(** ** The random source

    The generator is a sequence of draws and a position in it; every
    choice from a non-empty sequence consumes one draw. *)
Record RandomSource : Type := {
  draws : nat -> nat;
  position : nat
}.

(** [random.choice(seq)] *)
Definition random_choice {A : Type} (seq : list A) (rng : RandomSource)
  : result (A * RandomSource) :=
  match seq with
  | [] => Raise IndexError
  | a :: _ =>
      Ok (nth (draws rng (position rng) mod List.length seq)%nat seq a,
          {| draws := draws rng; position := S (position rng) |})
  end.

(** ** Rounding and saturation *)

(** Rounding to the nearest integer, ties to even, of the number
    [m * 2^e]. *)
Definition round_half_even (m : positive) (e : Z) : Z :=
  if 0 <=? e then Z.pos m * 2 ^ e
  else
    let d := 2 ^ (- e) in
    let q := Z.pos m / d in
    let r := Z.pos m mod d in
    if 2 * r <? d then q
    else if d <? 2 * r then q + 1
    else if Z.even q then q else q + 1.

(** Conversion of a binary64 number to [uint8]: rounded, then clamped to
    0..255. *)
Definition saturate_cast_u8 (f : float) : Z :=
  match Prim2SF f with
  | S754_finite s m e =>
      let z := round_half_even m e in
      Z.max 0 (Z.min 255 (if s then - z else z))
  | S754_infinity s => if s then 0 else 255
  | S754_zero _ => 0
  | S754_nan => 0
  end.

(** ** Region labels *)

Inductive RegionLabel : Type :=
| main_walls
| side_walls
| upper_lower_walls
| pillars
| balcony
| roof
| doors
| windows.

Definition label_str (l : RegionLabel) : string :=
  match l with
  | main_walls => "main_walls"
  | side_walls => "side_walls"
  | upper_lower_walls => "upper_lower_walls"
  | pillars => "pillars"
  | balcony => "balcony"
  | roof => "roof"
  | doors => "doors"
  | windows => "windows"
  end.

(** The local variables of [classify_region] once the mask is known to be
    non-empty. *)
Record RegionStats : Type := {
  h : Z;
  w : Z;
  box_height : Z;
  box_width : Z;
  box_area : Z;
  mask_area : Z;
  area_ratio : float;
  aspect : float;
  center_y : float;
  center_x : float;
  avg_b : float;
  avg_g : float;
  avg_r : float
}.

Module Seg.

(** *** [hex_to_bgr], lines 41-45 *)

Definition hex_to_bgr (hex_color : json) : result Pixel :=
  match hex_color with
  | JStr hex_color =>
      let hex_color := lstrip_hash hex_color in
      r <- int_base16 (substring 0 2 hex_color) ;;
      g <- int_base16 (substring 2 2 hex_color) ;;
      b <- int_base16 (substring 4 2 hex_color) ;;
      Ok (b, g, r)
  | _ => Raise AttributeError
  end.

(** *** [classify_region], lines 61-83: geometry and mean color *)

Definition region_stats (mask : Mask) (image : option Image)
  : result (option RegionStats) :=
  let ys := map (fun yx => Z.of_nat (fst yx)) (np_where mask) in
  let xs := map (fun yx => Z.of_nat (snd yx)) (np_where mask) in
  match ys, xs with
  | y0 :: ys', x0 :: xs' =>
      let h := Z.of_nat (mask_h mask) in
      let w := Z.of_nat (mask_w mask) in
      let min_y := fold_left Z.min ys' y0 in
      let max_y := fold_left Z.max ys' y0 in
      let min_x := fold_left Z.min xs' x0 in
      let max_x := fold_left Z.max xs' x0 in
      let box_height := max_y - min_y + 1 in
      let box_width := max_x - min_x + 1 in
      let box_area := box_height * box_width in
      let mask_area := Z.of_nat (length (np_where mask)) in
      let area_ratio := (Z2F mask_area / Z2F (h * w))%float in
      let aspect := (Z2F box_width / (Z2F box_height + 1e-5))%float in
      let center_y := (Z2F (min_y + max_y) / 2 / Z2F h)%float in
      let center_x := (Z2F (min_x + max_x) / 2 / Z2F w)%float in
      '(avg_b, avg_g, avg_r) <-
         match image with
         | None => Ok (0%float, 0%float, 0%float)
         | Some image =>
             region_pixels <- getitem_mask image mask ;;
             if (0 <? Z.of_nat (length region_pixels))
             then Ok (np_mean region_pixels)
             else Ok (0%float, 0%float, 0%float)
         end ;;
      Ok (Some {| h := h; w := w;
                  box_height := box_height; box_width := box_width;
                  box_area := box_area; mask_area := mask_area;
                  area_ratio := area_ratio; aspect := aspect;
                  center_y := center_y; center_x := center_x;
                  avg_b := avg_b; avg_g := avg_g; avg_r := avg_r |})
  | _, _ => Ok None
  end.

(** *** [classify_region], lines 89-129: the conditions of the heuristics *)

Definition roof_rule (s : RegionStats) : bool :=
  (center_y s <? 0.2)%float && (2.5 <? aspect s)%float
  && (Z2F (box_height s) <? 0.15 * Z2F (h s))%float.

Definition balcony_rule (s : RegionStats) : bool :=
  ((0.2 <? center_y s)%float && (center_y s <? 0.5)%float)
  && (2.0 <? aspect s)%float
  && ((0.08 <? Z2F (box_height s) / Z2F (h s))%float
      && (Z2F (box_height s) / Z2F (h s) <? 0.25)%float).

Definition pillars_rule (s : RegionStats) : bool :=
  (aspect s <? 0.25)%float && (0.4 * Z2F (h s) <? Z2F (box_height s))%float
  && ((center_x s <? 0.2)%float || (0.8 <? center_x s)%float).

Definition side_walls_rule (s : RegionStats) : bool :=
  (0.15 <? area_ratio s)%float
  && ((center_x s <? 0.3)%float || (0.7 <? center_x s)%float).

Definition upper_walls_rule (s : RegionStats) : bool :=
  (0.15 <? area_ratio s)%float && (center_y s <? 0.5)%float.

Definition main_walls_rule (s : RegionStats) : bool :=
  (0.15 <? area_ratio s)%float && (0.5 <=? center_y s)%float.

Definition doors_shape (s : RegionStats) : bool :=
  (0.7 <? center_y s)%float && (0.6 <? aspect s)%float
  && (0.01 * Z2F (h s) * Z2F (w s) <? Z2F (box_area s))%float.

Definition doors_dark (s : RegionStats) : bool :=
  (avg_r s <? 120)%float && (avg_g s <? 120)%float && (avg_b s <? 120)%float.

Definition windows_shape (s : RegionStats) : bool :=
  ((aspect s <? 0.5)%float && (0.1 * Z2F (h s) <? Z2F (box_height s))%float)
  || ((center_y s <? 0.6)%float
      && (Z2F (box_area s) <? 0.15 * Z2F (h s) * Z2F (w s))%float).

Definition windows_blue (s : RegionStats) : bool :=
  (avg_r s <? avg_b s)%float && (avg_g s <? avg_b s)%float
  && (130 <? avg_b s)%float.

(** The statement sequence of lines 89-129; [None] in the doors statement
    is the fall-through of its inner [if]. *)
Definition classify_stats (s : RegionStats) : RegionLabel :=
  if roof_rule s then roof else
  if balcony_rule s then balcony else
  if pillars_rule s then pillars else
  if side_walls_rule s then side_walls else
  if upper_walls_rule s then upper_lower_walls else
  if main_walls_rule s then main_walls else
  match (if doors_shape s
         then (if doors_dark s then Some doors else None)
         else None) with
  | Some l => l
  | None =>
      if windows_shape s
      then (if windows_blue s then windows else windows)
      else if (0.10 <? area_ratio s)%float then main_walls
      else main_walls
  end.

Definition classify_region (mask : Mask) (image : option Image)
  : result RegionLabel :=
  s <- region_stats mask image ;;
  match s with
  | None => Ok main_walls
  | Some s => Ok (classify_stats s)
  end.

(** *** [recommend_style_for_region], lines 144-161 *)

(** The six values of the returned tuple. *)
Definition Recommendation : Type := json * json * json * json * json * json.

(** The loop of lines 154-157 over the regions not yet visited;
    [style_list] is the value the variable has when the loop starts. *)
Fixpoint scan_regions (regions : list string) (style : string)
    (style_library : StyleLibrary) (style_list : list StyleRecord)
  : result (list StyleRecord) :=
  match regions with
  | [] => Ok style_list
  | region :: regions' =>
      region_styles <- getitem style_library region ;;
      if truthy_opt (dict_get region_styles style)
      then
        region_styles <- getitem style_library region ;;
        getitem region_styles style
      else scan_regions regions' style style_library style_list
  end.

(** Lines 145-157: the list the choice is made from. *)
Definition candidates (region_type style : string)
    (style_library : StyleLibrary) : result (list StyleRecord) :=
  let region_styles := get_default style_library region_type [] in
  let style_list := get_default region_styles style [] in
  let style_list :=
    if negb (truthy style_list)
    then get_default (get_default style_library "main_walls" []) style []
    else style_list in
  if negb (truthy style_list)
  then scan_regions (keys style_library) style style_library style_list
  else Ok style_list.

Definition recommend_style_for_region (region_type style : string)
    (style_library : StyleLibrary) (rng : RandomSource)
  : result (Recommendation * RandomSource) :=
  style_list <- candidates region_type style style_library ;;
  '(rec, rng) <- random_choice style_list rng ;;
  color <- getitem rec "color" ;;
  texture <- getitem rec "texture" ;;
  material <- getitem rec "material" ;;
  finish <- getitem rec "finish" ;;
  rating <- getitem rec "rating" ;;
  keywords <- getitem rec "keywords" ;;
  Ok ((color, texture, material, finish, rating, keywords), rng).

(** *** [apply_style_recommendations], lines 176-201

    The line printed for each region goes to the standard output and is
    not part of the result. *)

Fixpoint style_masks (original_img output_img : Image)
    (masks : list MaskDict) (style : string) (style_library : StyleLibrary)
    (rng : RandomSource) : result (Image * RandomSource) :=
  match masks with
  | [] => Ok (output_img, rng)
  | mask_dict :: masks' =>
      let mask := segmentation mask_dict in
      region_type <- classify_region mask (Some original_img) ;;
      '(color_hex, texture, material, finish, rating, keywords, rng) <-
         recommend_style_for_region (label_str region_type) style
           style_library rng ;;
      color_bgr <- hex_to_bgr color_hex ;;
      output_img <- setitem_mask output_img mask color_bgr ;;
      style_masks original_img output_img masks' style style_library rng
  end.

Definition apply_style_recommendations (original_img : Image)
    (masks : list MaskDict) (style : string) (style_library : StyleLibrary)
    (rng : RandomSource) : result (Image * RandomSource) :=
  let output_img := copy original_img in
  style_masks original_img output_img masks style style_library rng.

(** *** [main], lines 219-223: loading the style library

    The argument is the document [json.load] has parsed; the statement
    assigns it to [STYLE_LIBRARY] as it is. *)
Definition load_style_library (document : StyleLibrary)
  : result StyleLibrary :=
  Ok document.

(** *** [main], lines 276-281: blending *)

(** Modelled from the spec: [cv2.addWeighted], the OpenCV function the
    blending step calls, is not part of the sources.  Each channel of the
    result is [src1 * alpha + src2 * beta + gamma], rounded and clamped to
    the 8-bit range; images of different sizes are rejected.  The
    arithmetic is done here in binary64. *)
Definition add_weighted_channel (a : Z) (alpha : float) (b : Z)
    (beta gamma : float) : Z :=
  saturate_cast_u8 (Z2F a * alpha + Z2F b * beta + gamma)%float.

(** Modelled from the spec: [cv2.addWeighted] on whole images, channel by
    channel and pixel by pixel. *)
Definition add_weighted (src1 : Image) (alpha : float) (src2 : Image)
    (beta gamma : float) : result Image :=
  if (Nat.eqb (img_h src1) (img_h src2) && Nat.eqb (img_w src1) (img_w src2))%bool
  then Ok {| img_h := img_h src1;
             img_w := img_w src1;
             img_at := fun y x =>
               let p := img_at src1 y x in
               let q := img_at src2 y x in
               (add_weighted_channel (chan_b p) alpha (chan_b q) beta gamma,
                add_weighted_channel (chan_g p) alpha (chan_g q) beta gamma,
                add_weighted_channel (chan_r p) alpha (chan_r q) beta gamma) |}
  else Raise CvError.

Definition blend (img_np_bgr styled_image_bgr : Image) (blend_alpha : float)
  : result Image :=
  add_weighted img_np_bgr (1 - blend_alpha)%float
               styled_image_bgr blend_alpha 0%float.

End Seg.


(** ** The copy in [src/python/scripts/seg.py] *)

Module ScriptsSeg.

(** *** [hex_to_bgr], lines 15-19 *)

Definition hex_to_bgr (hex_color : json) : result Pixel :=
  match hex_color with
  | JStr hex_color =>
      let hex_color := lstrip_hash hex_color in
      r <- int_base16 (substring 0 2 hex_color) ;;
      g <- int_base16 (substring 2 2 hex_color) ;;
      b <- int_base16 (substring 4 2 hex_color) ;;
      Ok (b, g, r)
  | _ => Raise AttributeError
  end.

(** *** [classify_region], lines 26-72 *)

Definition classify_region (mask : Mask) (image : option Image)
  : result RegionLabel :=
  let ys := map (fun yx => Z.of_nat (fst yx)) (np_where mask) in
  let xs := map (fun yx => Z.of_nat (snd yx)) (np_where mask) in
  match ys, xs with
  | y0 :: ys', x0 :: xs' =>
      let h := Z.of_nat (mask_h mask) in
      let w := Z.of_nat (mask_w mask) in
      let min_y := fold_left Z.min ys' y0 in
      let max_y := fold_left Z.max ys' y0 in
      let min_x := fold_left Z.min xs' x0 in
      let max_x := fold_left Z.max xs' x0 in
      let box_height := max_y - min_y + 1 in
      let box_width := max_x - min_x + 1 in
      let box_area := box_height * box_width in
      let mask_area := Z.of_nat (length (np_where mask)) in
      let area_ratio := (Z2F mask_area / Z2F (h * w))%float in
      let aspect := (Z2F box_width / (Z2F box_height + 1e-5))%float in
      let center_y := (Z2F (min_y + max_y) / 2 / Z2F h)%float in
      let center_x := (Z2F (min_x + max_x) / 2 / Z2F w)%float in
      '(avg_b, avg_g, avg_r) <-
         match image with
         | None => Ok (0%float, 0%float, 0%float)
         | Some image =>
             region_pixels <- getitem_mask image mask ;;
             if (0 <? Z.of_nat (length region_pixels))
             then Ok (np_mean region_pixels)
             else Ok (0%float, 0%float, 0%float)
         end ;;
      if ((center_y <? 0.2)%float && (2.5 <? aspect)%float
          && (Z2F box_height <? 0.15 * Z2F h)%float)
      then Ok roof
      else if (((0.2 <? center_y)%float && (center_y <? 0.5)%float)
               && (2.0 <? aspect)%float
               && ((0.08 <? Z2F box_height / Z2F h)%float
                   && (Z2F box_height / Z2F h <? 0.25)%float))
      then Ok balcony
      else if ((aspect <? 0.25)%float && (0.4 * Z2F h <? Z2F box_height)%float
               && ((center_x <? 0.2)%float || (0.8 <? center_x)%float))
      then Ok pillars
      else if ((0.15 <? area_ratio)%float
               && ((center_x <? 0.3)%float || (0.7 <? center_x)%float))
      then Ok side_walls
      else if ((0.15 <? area_ratio)%float && (center_y <? 0.5)%float)
      then Ok upper_lower_walls
      else if ((0.15 <? area_ratio)%float && (0.5 <=? center_y)%float)
      then Ok main_walls
      else
        match (if ((0.7 <? center_y)%float && (0.6 <? aspect)%float
                   && (0.01 * Z2F h * Z2F w <? Z2F box_area)%float)
               then (if ((avg_r <? 120)%float && (avg_g <? 120)%float
                         && (avg_b <? 120)%float)
                     then Some doors else None)
               else None) with
        | Some l => Ok l
        | None =>
            if (((aspect <? 0.5)%float && (0.1 * Z2F h <? Z2F box_height)%float)
                || ((center_y <? 0.6)%float
                    && (Z2F box_area <? 0.15 * Z2F h * Z2F w)%float))
            then (if ((avg_r <? avg_b)%float && (avg_g <? avg_b)%float
                      && (130 <? avg_b)%float)
                  then Ok windows else Ok windows)
            else if (0.10 <? area_ratio)%float then Ok main_walls
            else Ok main_walls
        end
  | _, _ => Ok main_walls
  end.

(** *** [recommend_style_for_region], lines 78-90 *)

Fixpoint scan_regions (regions : list string) (style : string)
    (style_library : StyleLibrary) (style_list : list StyleRecord)
  : result (list StyleRecord) :=
  match regions with
  | [] => Ok style_list
  | region :: regions' =>
      region_styles <- getitem style_library region ;;
      if truthy_opt (dict_get region_styles style)
      then
        region_styles <- getitem style_library region ;;
        getitem region_styles style
      else scan_regions regions' style style_library style_list
  end.

Definition recommend_style_for_region (region_type style : string)
    (style_library : StyleLibrary) (rng : RandomSource)
  : result (Seg.Recommendation * RandomSource) :=
  let region_styles := get_default style_library region_type [] in
  let style_list := get_default region_styles style [] in
  let style_list :=
    if negb (truthy style_list)
    then get_default (get_default style_library "main_walls" []) style []
    else style_list in
  style_list <-
    (if negb (truthy style_list)
     then scan_regions (keys style_library) style style_library style_list
     else Ok style_list) ;;
  '(rec, rng) <- random_choice style_list rng ;;
  color <- getitem rec "color" ;;
  texture <- getitem rec "texture" ;;
  material <- getitem rec "material" ;;
  finish <- getitem rec "finish" ;;
  rating <- getitem rec "rating" ;;
  keywords <- getitem rec "keywords" ;;
  Ok ((color, texture, material, finish, rating, keywords), rng).

(** *** [apply_style_recommendations], lines 93-101 *)

Fixpoint style_masks (original_img output_img : Image)
    (masks : list MaskDict) (style : string) (style_library : StyleLibrary)
    (rng : RandomSource) : result (Image * RandomSource) :=
  match masks with
  | [] => Ok (output_img, rng)
  | mask_dict :: masks' =>
      let mask := segmentation mask_dict in
      region_type <- classify_region mask (Some original_img) ;;
      '(color_hex, texture, material, finish, rating, keywords, rng) <-
         recommend_style_for_region (label_str region_type) style
           style_library rng ;;
      color_bgr <- hex_to_bgr color_hex ;;
      output_img <- setitem_mask output_img mask color_bgr ;;
      style_masks original_img output_img masks' style style_library rng
  end.

Definition apply_style_recommendations (original_img : Image)
    (masks : list MaskDict) (style : string) (style_library : StyleLibrary)
    (rng : RandomSource) : result (Image * RandomSource) :=
  let output_img := copy original_img in
  style_masks original_img output_img masks style style_library rng.

End ScriptsSeg.

(** ** The driver: [main], lines 234-281 of [src/python/seg.py]

    Reading and writing files, the command line and the segmentation
    model are outside the embedding: the driver starts from the array of
    the decoded input image and ends with the two arrays it saves. *)

(** The array [np.array(img)]: two-dimensional for a single-band image,
    otherwise three-dimensional with the channel values of each pixel. *)
Inductive Decoded : Type :=
| Array2D (rows cols : nat) (at2 : nat -> nat -> Z)
| Array3D (rows cols channels : nat) (at3 : nat -> nat -> list Z).

(** [img_np.shape[:2]] *)
Definition shape2 (img_np : Decoded) : nat * nat :=
  match img_np with
  | Array2D rows cols _ => (rows, cols)
  | Array3D rows cols _ _ => (rows, cols)
  end.

Definition channel (p : list Z) (i : nat) : Z := nth i p 0.

(** [cv2.cvtColor] with [COLOR_RGB2BGR] or [COLOR_RGBA2BGR]: the first
    three channels in reverse order. *)
Definition cvt_to_bgr (rows cols : nat) (at3 : nat -> nat -> list Z) : Image :=
  {| img_h := rows;
     img_w := cols;
     img_at := fun y x =>
       let p := at3 y x in (channel p 2, channel p 1, channel p 0) |}.

(** [cv2.cvtColor] with [COLOR_GRAY2BGR]: the single channel three times;
    OpenCV refuses an input with another number of channels. *)
Definition cvt_gray_to_bgr (rows cols channels : nat)
    (at3 : nat -> nat -> list Z) : result Image :=
  if Nat.eqb channels 1
  then Ok {| img_h := rows;
             img_w := cols;
             img_at := fun y x =>
               let p := at3 y x in (channel p 0, channel p 0, channel p 0) |}
  else Raise CvError.

(** [cv2.cvtColor] with [COLOR_BGR2RGB] or [COLOR_RGB2BGR] on an image
    of three channels: the first and the third are exchanged. *)
Definition cvt_swap (image : Image) : Image :=
  {| img_h := img_h image;
     img_w := img_w image;
     img_at := fun y x =>
       let p := img_at image y x in (chan_r p, chan_g p, chan_b p) |}.

Module SegMain.

(** Lines 240-245 and 267-272: the input image in BGR order. *)
Definition to_bgr (img_np : Decoded) : result Image :=
  match img_np with
  | Array2D _ _ _ => Raise IndexError
  | Array3D rows cols channels at3 =>
      if Nat.eqb channels 4 then Ok (cvt_to_bgr rows cols at3)
      else if Nat.eqb channels 3 then Ok (cvt_to_bgr rows cols at3)
      else cvt_gray_to_bgr rows cols channels at3
  end.

Section Driver.

(** [mask_generator.generate] and [cv2.resize], taken as given. *)
Variable generate : Image -> list MaskDict.
Variable resize : Image -> nat -> nat -> Image.

(** Lines 219-281; the result is the styled image as saved, the blended
    image as saved and the random source. *)
Definition main (img_np : Decoded) (style : string)
    (document : StyleLibrary) (blend_alpha : float) (rng : RandomSource)
  : result (Image * Image * RandomSource) :=
  STYLE_LIBRARY <- Seg.load_style_library document ;;
  img_bgr <- to_bgr img_np ;;
  let masks := generate img_bgr in
  '(styled_image, rng) <-
     Seg.apply_style_recommendations img_bgr masks style STYLE_LIBRARY rng ;;
  let styled_image_rgb := cvt_swap styled_image in
  let saved_styled := styled_image_rgb in
  let styled_image_rgb :=
    if negb (Nat.eqb (fst (shape2 img_np)) (img_h styled_image_rgb)
             && Nat.eqb (snd (shape2 img_np)) (img_w styled_image_rgb))
    then resize styled_image_rgb (snd (shape2 img_np)) (fst (shape2 img_np))
    else styled_image_rgb in
  img_np_bgr <- to_bgr img_np ;;
  let styled_image_bgr := cvt_swap styled_image_rgb in
  blended_bgr <- Seg.blend img_np_bgr styled_image_bgr blend_alpha ;;
  let blended_rgb := cvt_swap blended_bgr in
  Ok (saved_styled, blended_rgb, rng).

End Driver.

End SegMain.

(** An RGB input array whose channels are 8-bit values. *)
Definition rgb_uint8 (rows cols : nat) (at3 : nat -> nat -> list Z) : Prop :=
  forall y x, (y < rows)%nat -> (x < cols)%nat ->
    exists r g b, at3 y x = [r; g; b]
                  /\ u8 r = true /\ u8 g = true /\ u8 b = true.

(** ** The specification's reading of the classifier

    The decision sequence as the specification words it: an ordered list
    of rules, each a predicate and a label, of which the first that matches
    wins, with [main_walls] as the catch-all. *)

Definition doors_rule (s : RegionStats) : bool :=
  Seg.doors_shape s && Seg.doors_dark s.

Definition fallback_a_rule (s : RegionStats) : bool :=
  (0.10 <? area_ratio s)%float.

Definition ordered_rules : list ((RegionStats -> bool) * RegionLabel) :=
  [ (Seg.roof_rule, roof);
    (Seg.balcony_rule, balcony);
    (Seg.pillars_rule, pillars);
    (Seg.side_walls_rule, side_walls);
    (Seg.upper_walls_rule, upper_lower_walls);
    (Seg.main_walls_rule, main_walls);
    (doors_rule, doors);
    (Seg.windows_shape, windows);
    (fallback_a_rule, main_walls) ].

Definition first_match (rules : list ((RegionStats -> bool) * RegionLabel))
    (s : RegionStats) : RegionLabel :=
  match find (fun rule => fst rule s) rules with
  | Some rule => snd rule
  | None => main_walls
  end.

(** Two statistics records that differ at most in the mean color. *)
Definition same_geometry (s s' : RegionStats) : Prop :=
  h s' = h s /\ w s' = w s
  /\ box_height s' = box_height s /\ box_width s' = box_width s
  /\ box_area s' = box_area s /\ mask_area s' = mask_area s
  /\ area_ratio s' = area_ratio s /\ aspect s' = aspect s
  /\ center_y s' = center_y s /\ center_x s' = center_x s.

(** ** Test data *)

(** A mask of [hh] rows and [ww] columns whose set pixels are the
    rectangle of rows [y0..y1] and columns [x0..x1]. *)
Definition block_mask (hh ww y0 y1 x0 x1 : nat) : Mask :=
  {| mask_h := hh; mask_w := ww;
     mask_at := fun y x =>
       (Nat.leb y0 y && Nat.leb y y1 && Nat.leb x0 x && Nat.leb x x1)%bool |}.

Definition empty_mask (hh ww : nat) : Mask :=
  {| mask_h := hh; mask_w := ww; mask_at := fun _ _ => false |}.

(** An image of one color. *)
Definition plain_image (hh ww : nat) (p : Pixel) : Image :=
  {| img_h := hh; img_w := ww; img_at := fun _ _ => p |}.

(** Statistics with a roof-like box and a large area at the left side.
    The record is built by hand: the box of an actual mask of this height
    could not hold that area. *)
Definition roof_and_side_stats : RegionStats :=
  {| h := 100; w := 100;
     box_height := 10; box_width := 100; box_area := 1000; mask_area := 2000;
     area_ratio := 0.2; aspect := 9.99999; center_y := 0.1; center_x := 0.1;
     avg_b := 0; avg_g := 0; avg_r := 0 |}.

(** ** The specification's reading of style resolution *)

(** The option list of a region for a style; empty when the region or the
    style is absent. *)
Definition lookup (catalog : StyleLibrary) (region style : string)
  : list StyleRecord :=
  match dict_get catalog region with
  | Some styles =>
      match dict_get styles style with
      | Some options => options
      | None => []
      end
  | None => []
  end.



(** The six fields of a record, when all are present. *)
Definition option_fields (r : StyleRecord) : option Seg.Recommendation :=
  match dict_get r "color", dict_get r "texture", dict_get r "material",
        dict_get r "finish", dict_get r "rating", dict_get r "keywords" with
  | Some color, Some texture, Some material,
    Some finish, Some rating, Some keywords =>
      Some (color, texture, material, finish, rating, keywords)
  | _, _, _, _, _, _ => None
  end.

Definition has_all_fields (r : StyleRecord) : bool :=
  match option_fields r with
  | Some _ => true
  | None => false
  end.

(** Every record of the catalog has the six fields. *)
Definition complete_library (catalog : StyleLibrary) : bool :=
  forallb (fun region =>
    forallb (fun style => forallb has_all_fields (snd style)) (snd region))
    catalog.

(** The schema of a style option: [color] a string [#RRGGBB]; [texture],
    [material] and [finish] strings; [rating] a number; [keywords] a list
    of strings. *)
Definition is_hex_color (s : string) : bool :=
  match list_ascii_of_string s with
  | c :: digits =>
      Ascii.eqb c "#" && Nat.eqb (List.length digits) 6
      && forallb (fun d => match hex_digit d with Some _ => true | None => false end)
                 digits
  | [] => false
  end.

Definition is_string (v : json) : bool :=
  match v with
  | JStr _ => true
  | _ => false
  end.

Definition is_number (v : json) : bool :=
  match v with
  | JInt _ | JFloat _ => true
  | _ => false
  end.

Definition well_formed_option (r : StyleRecord) : bool :=
  match option_fields r with
  | Some (JStr color, texture, material, finish, rating, JList keywords) =>
      is_hex_color color && is_string texture && is_string material
      && is_string finish && is_number rating && forallb is_string keywords
  | _ => false
  end.

Definition well_formed_library (catalog : StyleLibrary) : bool :=
  forallb (fun region =>
    forallb (fun style => forallb well_formed_option (snd style)) (snd region))
    catalog.

(** The generator after one draw. *)
Definition advance (rng : RandomSource) : RandomSource :=
  {| draws := draws rng; position := S (position rng) |}.

(** A random source that always draws 0. *)
Definition zero_source : RandomSource :=
  {| draws := fun _ => 0%nat; position := 0 |}.

Definition option_x : StyleRecord :=
  [ ("color", JStr "#AABBCC"); ("texture", JStr "t"); ("material", JStr "m");
    ("finish", JStr "f"); ("rating", JInt 4); ("keywords", JList [JStr "k"]) ].

(** A catalog with [main_walls.modern = [option_x]] and a [roof] region
    without [modern]. *)
Definition small_catalog : StyleLibrary :=
  [ ("roof", [ ("rustic", [option_x]) ]);
    ("main_walls", [ ("modern", [option_x]) ]) ].

(** A record without [color], and a record whose rating is a string. *)
Definition option_no_color : StyleRecord :=
  [ ("texture", JStr "t"); ("material", JStr "m");
    ("finish", JStr "f"); ("rating", JInt 4); ("keywords", JList [JStr "k"]) ].

Definition option_bad_rating : StyleRecord :=
  [ ("color", JStr "#AABBCC"); ("texture", JStr "t"); ("material", JStr "m");
    ("finish", JStr "f"); ("rating", JStr "high"); ("keywords", JList [JStr "k"]) ].

Definition malformed_catalog : StyleLibrary :=
  [ ("main_walls", [ ("modern", [option_no_color]);
                     ("classic", [option_bad_rating]) ]) ].

(** ** Catalog documents

    [json.load] returns whatever the file holds.  The embedding covers
    the documents whose containers follow the schema of the catalog: an
    object of regions, each an object of styles, each a list of objects.
    [library_of_json] gives the catalog such a document denotes, and
    [None] for any other document (a string or a number where a record
    is expected, a list in place of a region, and so on), on which the
    resolver would meet values of other types. *)

Fixpoint traverse {A B : Type} (f : A -> option B) (l : list A)
  : option (list B) :=
  match l with
  | [] => Some []
  | a :: l' =>
      match f a, traverse f l' with
      | Some b, Some bs => Some (b :: bs)
      | _, _ => None
      end
  end.

Definition record_of_json (v : json) : option StyleRecord :=
  match v with
  | JObj fields => Some fields
  | _ => None
  end.

Definition options_of_json (v : json) : option (list StyleRecord) :=
  match v with
  | JList records => traverse record_of_json records
  | _ => None
  end.

Definition styles_of_json (v : json) : option (dict (list StyleRecord)) :=
  match v with
  | JObj styles =>
      traverse (fun entry =>
                  option_map (pair (fst entry)) (options_of_json (snd entry)))
               styles
  | _ => None
  end.

Definition library_of_json (document : json) : option StyleLibrary :=
  match document with
  | JObj regions =>
      traverse (fun entry =>
                  option_map (pair (fst entry)) (styles_of_json (snd entry)))
               regions
  | _ => None
  end.

(** The document of a catalog. *)
Definition json_of_library (catalog : StyleLibrary) : json :=
  JObj (map (fun region =>
               (fst region,
                JObj (map (fun style =>
                             (fst style, JList (map JObj (snd style))))
                          (snd region))))
            catalog).

(** A document whose list for [main_walls.modern] holds a string instead
    of a record. *)
Definition string_for_record : json :=
  JObj [ ("main_walls", JObj [ ("modern", JList [JStr "#AABBCC"]) ]) ].

(** ** The specification's reading of compositing *)

Definition color_of (fields : Seg.Recommendation) : json :=
  match fields with
  | (color, _, _, _, _, _) => color
  end.

(** The colors resolved for the masks, in processing order, each
    converted to the channel order of the image; the random source is
    threaded through the resolutions in that order. *)
Fixpoint resolved_colors (original_img : Image) (masks : list MaskDict)
    (style : string) (style_library : StyleLibrary) (rng : RandomSource)
  : result (list Pixel * RandomSource) :=
  match masks with
  | [] => Ok ([], rng)
  | mask_dict :: masks' =>
      region_type <-
        Seg.classify_region (segmentation mask_dict) (Some original_img) ;;
      '(fields, rng) <-
        Seg.recommend_style_for_region (label_str region_type) style
          style_library rng ;;
      color_bgr <- Seg.hex_to_bgr (color_of fields) ;;
      '(colors, rng) <-
        resolved_colors original_img masks' style style_library rng ;;
      Ok (color_bgr :: colors, rng)
  end.

Definition u8_pixel (p : Pixel) : bool :=
  u8 (chan_b p) && u8 (chan_g p) && u8 (chan_r p).

(** The channels of the pixels of an image are 8-bit values. *)
Definition uint8_image (image : Image) : Prop :=
  forall y x, (y < img_h image)%nat -> (x < img_w image)%nat ->
              u8_pixel (img_at image y x) = true.

(** Overlaps are resolved in favor of the last mask: [out] has, at each
    pixel, the color of the last mask that covers it (whose array has a
    set entry there), and the pixel of [output_img] where no mask does. *)
Definition last_write_wins (masks : list MaskDict) (colors : list Pixel)
    (output_img out : Image) : Prop :=
  forall y x,
    (forall k m c,
        nth_error masks k = Some m ->
        nth_error colors k = Some c ->
        mask_set (segmentation m) y x = true ->
        (forall k' m', (k < k')%nat -> nth_error masks k' = Some m' ->
                       mask_set (segmentation m') y x = false) ->
        img_at out y x = c)
    /\ ((forall k m, nth_error masks k = Some m ->
                     mask_set (segmentation m) y x = false) ->
        img_at out y x = img_at output_img y x).

(** The values of an 8-bit channel. *)
Definition byte_values : list Z := map Z.of_nat (seq 0 256).

(** Two masks of a 4 x 4 image that overlap in the middle rows and leave
    the last column uncovered. *)
Definition upper_mask : MaskDict := {| segmentation := block_mask 4 4 0 2 0 2 |}.
Definition lower_mask : MaskDict := {| segmentation := block_mask 4 4 1 3 0 2 |}.

Definition option_red : StyleRecord :=
  [ ("color", JStr "#FF0000"); ("texture", JStr "t"); ("material", JStr "m");
    ("finish", JStr "f"); ("rating", JInt 5); ("keywords", JList []) ].

Definition two_color_catalog : StyleLibrary :=
  [ ("side_walls", [ ("modern", [option_red; option_x]) ]) ].

(** A random source whose n-th draw is n. *)
Definition counting_source : RandomSource :=
  {| draws := fun n => n; position := 0 |}.

(** A 4 x 4 RGB input of one color, a mask generator that returns the
    two overlapping masks, and a resize that does nothing. *)
Definition sample_rgb : Decoded :=
  Array3D 4 4 3 (fun _ _ => [3; 2; 1]).

Definition two_masks (image : Image) : list MaskDict :=
  [upper_mask; lower_mask].

Definition no_resize (image : Image) (width height : nat) : Image := image.

(** * Region classification *)

Lemma filter_all_false {A : Type} (f : A -> bool) (l : list A) :
  (forall a, In a l -> f a = false) -> filter f l = [].
Proof.
  induction l as [|a l IH]; intros Hf; [reflexivity|].
  simpl. rewrite (Hf a (or_introl eq_refl)).
  apply IH. intros b Hb. apply Hf. now right.
Qed.

Lemma np_where_empty (mask : Mask) :
  (forall y x, (y < mask_h mask)%nat -> (x < mask_w mask)%nat ->
               mask_at mask y x = false) ->
  np_where mask = [].
Proof.
  intros Hfalse. unfold np_where. apply filter_all_false.
  intros [y x] Hin. apply in_prod_iff in Hin. destruct Hin as [Hy Hx].
  apply in_seq in Hy. apply in_seq in Hx. simpl. apply Hfalse; lia.
Qed.

(** C5. A mask with no set pixel is classified [main_walls], whatever
    the image argument is: the function returns before the bounding box,
    the ratios, the center or the mean color are computed, so that not
    even an image of another shape makes it fail. *)
Theorem classify_region_empty_mask (mask : Mask) (image : option Image) :
  (forall y x, (y < mask_h mask)%nat -> (x < mask_w mask)%nat ->
               mask_at mask y x = false) ->
  Seg.classify_region mask image = Ok main_walls
  /\ Seg.region_stats mask image = Ok None.
Proof.
  intros Hfalse. apply np_where_empty in Hfalse.
  unfold Seg.classify_region, Seg.region_stats.
  rewrite Hfalse. simpl. split; reflexivity.
Qed.

Lemma classify_region_empty_mask_witness :
  Seg.classify_region (empty_mask 100 100)
    (Some (plain_image 3 5 (10, 20, 30))) = Ok main_walls
  /\ Seg.region_stats (empty_mask 100 100)
       (Some (plain_image 3 5 (10, 20, 30))) = Ok None.
Proof.
  apply (classify_region_empty_mask (empty_mask 100 100)
           (Some (plain_image 3 5 (10, 20, 30)))).
  intros y x _ _. reflexivity.
Defined.

(** The label of a non-empty mask is the one the decision sequence gives
    to its statistics. *)
Lemma classify_region_stats (mask : Mask) (image : option Image)
    (s : RegionStats) :
  Seg.region_stats mask image = Ok (Some s) ->
  Seg.classify_region mask image = Ok (Seg.classify_stats s).
Proof.
  intros Hs. unfold Seg.classify_region. rewrite Hs. reflexivity.
Qed.

(** C4. The code's statement sequence is the ordered rule list of the
    specification, first match wins, in the order roof, balcony, pillars,
    side_walls, upper_lower_walls, main_walls, doors, windows, fallbacks;
    in particular statistics that satisfy both the roof predicate and the
    side_walls predicate are classified [roof]. *)
Theorem rule_order_roof_before_side_walls (s : RegionStats) :
  Seg.roof_rule s = true ->
  Seg.side_walls_rule s = true ->
  Seg.classify_stats s = roof
  /\ forall s', Seg.classify_stats s' = first_match ordered_rules s'.
Proof.
  intros Hroof _. split.
  - unfold Seg.classify_stats. rewrite Hroof. reflexivity.
  - intros s'. unfold Seg.classify_stats, first_match, ordered_rules, find,
      doors_rule, fallback_a_rule, fst, snd.
    destruct (Seg.roof_rule s'); [reflexivity|].
    destruct (Seg.balcony_rule s'); [reflexivity|].
    destruct (Seg.pillars_rule s'); [reflexivity|].
    destruct (Seg.side_walls_rule s'); [reflexivity|].
    destruct (Seg.upper_walls_rule s'); [reflexivity|].
    destruct (Seg.main_walls_rule s'); [reflexivity|].
    destruct (Seg.doors_shape s'), (Seg.doors_dark s'); simpl;
      try reflexivity;
      destruct (Seg.windows_shape s'), (Seg.windows_blue s');
      try reflexivity;
      destruct (0.10 <? area_ratio s')%float; reflexivity.
Qed.

Lemma rule_order_roof_before_side_walls_witness :
  Seg.classify_stats roof_and_side_stats = roof
  /\ forall s', Seg.classify_stats s' = first_match ordered_rules s'.
Proof.
  apply (rule_order_roof_before_side_walls roof_and_side_stats);
    vm_compute; reflexivity.
Defined.

(** C3. A non-empty mask whose statistics fail rules 1 to 7 and satisfy
    the shape and position test of the windows rule is classified
    [windows], whatever the mean color under the mask is: both branches
    of the color test of that rule give the same label. *)
Theorem windows_rule_ignores_color (mask : Mask) (image : option Image)
    (s : RegionStats) :
  Seg.region_stats mask image = Ok (Some s) ->
  Seg.roof_rule s = false ->
  Seg.balcony_rule s = false ->
  Seg.pillars_rule s = false ->
  Seg.side_walls_rule s = false ->
  Seg.upper_walls_rule s = false ->
  Seg.main_walls_rule s = false ->
  doors_rule s = false ->
  Seg.windows_shape s = true ->
  Seg.classify_region mask image = Ok windows.
Proof.
  intros Hs H1 H2 H3 H4 H5 H6 H7 H8.
  rewrite (classify_region_stats _ _ _ Hs).
  unfold Seg.classify_stats. rewrite H1, H2, H3, H4, H5, H6, H8.
  unfold doors_rule in H7.
  destruct (Seg.doors_shape s), (Seg.doors_dark s);
    try discriminate H7; destruct (Seg.windows_blue s); reflexivity.
Qed.

Lemma windows_rule_ignores_color_witness :
  Seg.classify_region (block_mask 10 10 4 5 4 5)
    (Some (plain_image 10 10 (10, 20, 200))) = Ok windows
  /\ Seg.classify_region (block_mask 10 10 4 5 4 5)
       (Some (plain_image 10 10 (200, 20, 10))) = Ok windows.
Proof.
  split.
  - eapply (windows_rule_ignores_color (block_mask 10 10 4 5 4 5)
              (Some (plain_image 10 10 (10, 20, 200))));
      [vm_compute; reflexivity | vm_compute; reflexivity ..].
  - eapply (windows_rule_ignores_color (block_mask 10 10 4 5 4 5)
              (Some (plain_image 10 10 (200, 20, 10))));
      [vm_compute; reflexivity | vm_compute; reflexivity ..].
Defined.

(** Without an image the three means keep their initial value 0. *)
Lemma region_stats_no_image (mask : Mask) (s : RegionStats) :
  Seg.region_stats mask None = Ok (Some s) ->
  avg_b s = 0%float /\ avg_g s = 0%float /\ avg_r s = 0%float.
Proof.
  unfold Seg.region_stats.
  destruct (map (fun yx => Z.of_nat (fst yx)) (np_where mask)) as [|y0 ys'];
    [discriminate|].
  destruct (map (fun yx => Z.of_nat (snd yx)) (np_where mask)) as [|x0 xs'];
    [discriminate|].
  simpl. intros Hs. injection Hs as <-. simpl. repeat split.
Qed.

(** C9. Called without an image, the classifier leaves the mean color at
    (0, 0, 0), so the darkness test of the doors rule holds: every
    non-empty mask that fails rules 1 to 6 and satisfies the shape and
    position test of the doors rule is labeled [doors]. *)
Theorem doors_without_image (mask : Mask) (s : RegionStats) :
  Seg.region_stats mask None = Ok (Some s) ->
  Seg.roof_rule s = false ->
  Seg.balcony_rule s = false ->
  Seg.pillars_rule s = false ->
  Seg.side_walls_rule s = false ->
  Seg.upper_walls_rule s = false ->
  Seg.main_walls_rule s = false ->
  Seg.doors_shape s = true ->
  Seg.doors_dark s = true
  /\ Seg.classify_region mask None = Ok doors.
Proof.
  intros Hs H1 H2 H3 H4 H5 H6 H7.
  destruct (region_stats_no_image _ _ Hs) as (Hb & Hg & Hr).
  assert (Hdark : Seg.doors_dark s = true).
  { unfold Seg.doors_dark. rewrite Hb, Hg, Hr. vm_compute. reflexivity. }
  split; [exact Hdark|].
  rewrite (classify_region_stats _ _ _ Hs).
  unfold Seg.classify_stats. rewrite H1, H2, H3, H4, H5, H6, H7, Hdark.
  reflexivity.
Qed.

Lemma doors_without_image_witness :
  Seg.classify_region (block_mask 10 10 8 9 4 5) None = Ok doors.
Proof.
  eapply (doors_without_image (block_mask 10 10 8 9 4 5));
    [vm_compute; reflexivity | vm_compute; reflexivity ..].
Defined.

(** * Style resolution *)

Section Dictionaries.

Context {V : Type}.
Implicit Types (d : dict V) (k : string) (v : V).

Lemma dict_get_In d k v : dict_get d k = Some v -> In (k, v) d.
Proof.
  induction d as [|[k' v'] d IH]; simpl; [discriminate|].
  destruct (String.eqb_spec k' k) as [->|Hne].
  - intros [= ->]. now left.
  - intros H. right. now apply IH.
Qed.

Lemma dict_get_None d k : dict_get d k = None <-> ~ In k (keys d).
Proof.
  induction d as [|[k' v'] d IH]; simpl.
  - split; [intros _ []|reflexivity].
  - destruct (String.eqb_spec k' k) as [->|Hne].
    + split; [discriminate|]. intros H. exfalso. apply H. now left.
    + rewrite IH. split.
      * intros H [Heq|Hin]; [now apply Hne|now apply H].
      * intros H Hin. apply H. now right.
Qed.

Lemma dict_get_keys d k : In k (keys d) -> exists v, dict_get d k = Some v.
Proof.
  intros Hin. destruct (dict_get d k) as [v|] eqn:E; [now exists v|].
  apply dict_get_None in E. contradiction.
Qed.


End Dictionaries.

Lemma truthy_opt_get_default (styles : dict (list StyleRecord)) (style : string) :
  truthy_opt (dict_get styles style) = truthy (get_default styles style []).
Proof.
  unfold get_default. now destruct (dict_get styles style).
Qed.

Lemma truthy_false {A : Type} (l : list A) : truthy l = false <-> l = [].
Proof. destruct l; simpl; split; congruence. Qed.


Lemma lookup_get_default (catalog : StyleLibrary) (region style : string) :
  get_default (get_default catalog region []) style [] =
  lookup catalog region style.
Proof.
  unfold lookup, get_default.
  destruct (dict_get catalog region); reflexivity.
Qed.


(** Lines 161: the six subscripts of the chosen record. *)
Lemma subscripts_option_fields (rec : StyleRecord) (rng : RandomSource) :
  (color <- getitem rec "color" ;;
   texture <- getitem rec "texture" ;;
   material <- getitem rec "material" ;;
   finish <- getitem rec "finish" ;;
   rating <- getitem rec "rating" ;;
   keywords <- getitem rec "keywords" ;;
   Ok ((color, texture, material, finish, rating, keywords), rng)) =
  match option_fields rec with
  | Some fields => Ok (fields, rng)
  | None => Raise KeyError
  end.
Proof.
  unfold option_fields, getitem.
  destruct (dict_get rec "color"); simpl; [|reflexivity].
  destruct (dict_get rec "texture"); simpl; [|reflexivity].
  destruct (dict_get rec "material"); simpl; [|reflexivity].
  destruct (dict_get rec "finish"); simpl; [|reflexivity].
  destruct (dict_get rec "rating"); simpl; [|reflexivity].
  destruct (dict_get rec "keywords"); simpl; reflexivity.
Qed.

(** The resolver in terms of its candidate list. *)
Lemma recommend_from_candidates (region style : string)
    (style_library : StyleLibrary) (rng : RandomSource)
    (style_list : list StyleRecord) :
  Seg.candidates region style style_library = Ok style_list ->
  Seg.recommend_style_for_region region style style_library rng =
  ('(rec, rng') <- random_choice style_list rng ;;
   match option_fields rec with
   | Some fields => Ok (fields, rng')
   | None => Raise KeyError
   end).
Proof.
  intros Hc. unfold Seg.recommend_style_for_region. rewrite Hc. simpl.
  destruct (random_choice style_list rng) as [[rec rng']|e]; simpl;
    [|reflexivity].
  apply subscripts_option_fields.
Qed.



(** The loop never fails on keys of the catalog; it ends with the empty
    list when no visited region has options for the style, and with the
    non-empty list of some region otherwise. *)
Lemma scan_regions_total (style : string) (style_library : StyleLibrary)
    (regions : list string) :
  (forall k, In k regions -> In k (keys style_library)) ->
  exists style_list,
    Seg.scan_regions regions style style_library [] = Ok style_list
    /\ ((style_list = []
         /\ forall k, In k regions -> lookup style_library k style = [])
        \/ (style_list <> []
            /\ exists k, lookup style_library k style = style_list)).
Proof.
  induction regions as [|region regions IH]; intros Hsub.
  - exists []. split; [reflexivity|]. left. split; [reflexivity|intros k []].
  - destruct (dict_get_keys style_library region (Hsub region (or_introl eq_refl)))
      as [styles Hk].
    simpl. unfold getitem at 1. rewrite Hk. simpl.
    assert (Hl : lookup style_library region style = get_default styles style []).
    { unfold lookup, get_default. rewrite Hk. reflexivity. }
    rewrite truthy_opt_get_default.
    destruct (truthy (get_default styles style [])) eqn:Et.
    + exists (get_default styles style []). split.
      * unfold getitem. rewrite Hk. simpl. unfold get_default in *.
        destruct (dict_get styles style); [reflexivity|discriminate].
      * right. split; [intros E; rewrite E in Et; discriminate|].
        exists region. exact Hl.
    + destruct IH as (l & Hscan & Hcases).
      { intros k Hin. apply Hsub. now right. }
      exists l. split; [exact Hscan|].
      destruct Hcases as [[-> Hall]|Hsome]; [left|now right].
      split; [reflexivity|]. intros k [<-|Hin]; [|now apply Hall].
      rewrite Hl. now apply truthy_false.
Qed.

Lemma lookup_absent (style_library : StyleLibrary) (k style : string) :
  ~ In k (keys style_library) -> lookup style_library k style = [].
Proof.
  intros Hk. apply dict_get_None in Hk. unfold lookup. now rewrite Hk.
Qed.

(** The candidate list always exists; it is empty exactly when no region
    of the catalog has options for the style. *)
Lemma candidates_total (region style : string) (style_library : StyleLibrary) :
  exists style_list,
    Seg.candidates region style style_library = Ok style_list
    /\ ((style_list = [] /\ forall k, lookup style_library k style = [])
        \/ (style_list <> []
            /\ exists k, lookup style_library k style = style_list)).
Proof.
  unfold Seg.candidates. rewrite !lookup_get_default.
  destruct (lookup style_library region style) as [|o os] eqn:E1; simpl.
  - destruct (lookup style_library "main_walls" style) as [|o os] eqn:E2; simpl.
    + destruct (scan_regions_total style style_library (keys style_library))
        as (l & Hscan & Hcases); [auto|].
      exists l. split; [exact Hscan|].
      destruct Hcases as [[-> Hall]|Hsome]; [left|now right].
      split; [reflexivity|]. intros k.
      destruct (in_dec string_dec k (keys style_library)) as [Hin|Hout].
      * now apply Hall.
      * now apply lookup_absent.
    + exists (o :: os). split; [reflexivity|]. right.
      split; [discriminate|]. now exists "main_walls".
  - exists (o :: os). split; [reflexivity|]. right.
    split; [discriminate|]. now exists region.
Qed.

Lemma random_choice_In {A : Type} (seq : list A) (rng : RandomSource) :
  seq <> [] ->
  exists a, In a seq /\ random_choice seq rng = Ok (a, advance rng).
Proof.
  destruct seq as [|a0 seq']; [congruence|]. intros _.
  unfold random_choice.
  exists (nth (draws rng (position rng) mod List.length (a0 :: seq'))%nat
              (a0 :: seq') a0).
  split; [|reflexivity].
  apply nth_In. apply Nat.mod_upper_bound. discriminate.
Qed.

Lemma complete_library_lookup (style_library : StyleLibrary)
    (k style : string) (rec : StyleRecord) :
  complete_library style_library = true ->
  In rec (lookup style_library k style) ->
  has_all_fields rec = true.
Proof.
  intros Hc Hin. unfold lookup in Hin.
  destruct (dict_get style_library k) as [styles|] eqn:Ek; [|destruct Hin].
  destruct (dict_get styles style) as [options|] eqn:Es; [|destruct Hin].
  apply dict_get_In in Ek. apply dict_get_In in Es.
  unfold complete_library in Hc. rewrite forallb_forall in Hc.
  specialize (Hc _ Ek). simpl in Hc. rewrite forallb_forall in Hc.
  specialize (Hc _ Es). simpl in Hc. rewrite forallb_forall in Hc.
  now apply Hc.
Qed.

(** C2, as the code has it.  For a catalog document whose containers
    follow the schema: when no region has a non-empty option list for the
    style, resolution raises the error of a choice from an empty list
    (IndexError, the specification's CatalogExhausted), for every region
    label; when some region has a non-empty list for the style, a record
    listed for the style is chosen, whatever the region label, and
    resolution returns its six fields, or raises KeyError if the record
    lacks one of them.  So it does not raise when, in addition, every
    record of the catalog has its six fields. *)
Theorem style_resolution_exhausted (document : json) (region style : string)
    (style_library : StyleLibrary) (rng : RandomSource) :
  library_of_json document = Some style_library ->
  ((forall k, lookup style_library k style = []) ->
   Seg.recommend_style_for_region region style style_library rng =
   Raise IndexError)
  /\ ((exists k, lookup style_library k style <> []) ->
      exists rec,
        (exists k, In rec (lookup style_library k style))
        /\ Seg.recommend_style_for_region region style style_library rng =
           match option_fields rec with
           | Some fields => Ok (fields, advance rng)
           | None => Raise KeyError
           end)
  /\ (complete_library style_library = true ->
      (exists k, lookup style_library k style <> []) ->
      exists rec fields,
        option_fields rec = Some fields
        /\ (exists k, In rec (lookup style_library k style))
        /\ Seg.recommend_style_for_region region style style_library rng =
           Ok (fields, advance rng)).
Proof.
  intros _.
  destruct (candidates_total region style style_library)
    as (l & Hc & Hcases).
  rewrite (recommend_from_candidates _ _ _ rng l Hc).
  assert (Hchosen : (exists k, lookup style_library k style <> []) ->
    exists rec k, In rec (lookup style_library k style)
                  /\ random_choice l rng = Ok (rec, advance rng)).
  { intros [k Hk].
    destruct Hcases as [[_ Hall]|[Hne [k' Hk']]];
      [now rewrite Hall in Hk|].
    destruct (random_choice_In l rng Hne) as (rec & Hin & Hchoice).
    exists rec, k'. split; [now rewrite Hk'|exact Hchoice]. }
  split; [|split].
  - intros Hnone.
    destruct Hcases as [[-> _]|[Hne [k Hk]]]; [reflexivity|].
    rewrite Hnone in Hk. congruence.
  - intros Hsome. destruct (Hchosen Hsome) as (rec & k & Hin & Hchoice).
    exists rec. split; [now exists k|].
    rewrite Hchoice. reflexivity.
  - intros Hcomplete Hsome.
    destruct (Hchosen Hsome) as (rec & k & Hin & Hchoice).
    rewrite Hchoice. cbn [bind].
    assert (Hf : has_all_fields rec = true)
      by (apply (complete_library_lookup style_library k style); assumption).
    unfold has_all_fields in Hf.
    destruct (option_fields rec) as [fields|] eqn:Ef; [|discriminate].
    exists rec, fields. split; [exact Ef|].
    split; [now exists k|reflexivity].
Qed.

Lemma style_resolution_exhausted_witness :
  Seg.recommend_style_for_region "roof" "ghost" small_catalog zero_source =
    Raise IndexError
  /\ (exists rec,
        (exists k, In rec (lookup malformed_catalog k "modern"))
        /\ Seg.recommend_style_for_region "roof" "modern" malformed_catalog
             zero_source =
           match option_fields rec with
           | Some fields => Ok (fields, advance zero_source)
           | None => Raise KeyError
           end)
  /\ exists rec fields,
       option_fields rec = Some fields
       /\ (exists k, In rec (lookup small_catalog k "rustic"))
       /\ Seg.recommend_style_for_region "doors" "rustic" small_catalog
            zero_source = Ok (fields, advance zero_source).
Proof.
  split; [|split].
  - apply (style_resolution_exhausted (json_of_library small_catalog)
             "roof" "ghost" small_catalog zero_source eq_refl).
    intros k. unfold lookup, small_catalog, dict_get.
    destruct (String.eqb "roof" k); [reflexivity|].
    destruct (String.eqb "main_walls" k); reflexivity.
  - apply (style_resolution_exhausted (json_of_library malformed_catalog)
             "roof" "modern" malformed_catalog zero_source eq_refl).
    exists "main_walls". discriminate.
  - apply (style_resolution_exhausted (json_of_library small_catalog)
             "doors" "rustic" small_catalog zero_source eq_refl).
    + reflexivity.
    + exists "roof". discriminate.
Defined.

(** C2, as the specification states it, fails: [main_walls] has a
    non-empty list for [modern], the fallback chain finds it for the
    region [roof], and resolution raises all the same, because the record
    it holds has no [color]. *)
Lemma nonempty_list_still_raises :
  library_of_json (json_of_library malformed_catalog) = Some malformed_catalog
  /\ lookup malformed_catalog "main_walls" "modern" <> []
  /\ Seg.recommend_style_for_region "roof" "modern" malformed_catalog
       zero_source = Raise KeyError
  /\ ~ (forall region style style_library rng,
          (exists k, lookup style_library k style <> []) ->
          exists r,
            Seg.recommend_style_for_region region style style_library rng =
            Ok r).
Proof.
  split; [reflexivity|]. split; [discriminate|]. split; [reflexivity|].
  intros Hclaim.
  destruct (Hclaim "roof" "modern" malformed_catalog zero_source) as [r Hr].
  - exists "main_walls". discriminate.
  - discriminate Hr.
Qed.

(** * Loading the style library *)

(** C8, as the code has it.  Loading checks nothing: every parsed
    document is accepted and kept as it is.  A record is looked at only
    when the resolver has chosen it: if one of its six fields is missing
    the resolver raises KeyError there, and otherwise it returns the six
    values as they are, whatever their types. *)
Theorem load_accepts_every_document (document : StyleLibrary)
    (region style : string) (rng rng' : RandomSource)
    (style_list : list StyleRecord) (rec : StyleRecord) :
  Seg.candidates region style document = Ok style_list ->
  random_choice style_list rng = Ok (rec, rng') ->
  Seg.load_style_library document = Ok document
  /\ Seg.recommend_style_for_region region style document rng =
     match option_fields rec with
     | Some fields => Ok (fields, rng')
     | None => Raise KeyError
     end.
Proof.
  intros Hc Hchoice. split; [reflexivity|].
  rewrite (recommend_from_candidates _ _ _ rng style_list Hc).
  rewrite Hchoice. reflexivity.
Qed.

Lemma load_accepts_every_document_witness :
  Seg.load_style_library malformed_catalog = Ok malformed_catalog
  /\ Seg.recommend_style_for_region "main_walls" "classic" malformed_catalog
       zero_source =
     Ok ((JStr "#AABBCC", JStr "t", JStr "m", JStr "f", JStr "high",
          JList [JStr "k"]), advance zero_source).
Proof.
  apply (load_accepts_every_document malformed_catalog "main_walls" "classic"
           zero_source (advance zero_source) [option_bad_rating]
           option_bad_rating); reflexivity.
Defined.

(** C8, as the specification states it, fails: a catalog with a record
    that has no [color] and a record whose [rating] is a string violates
    the schema, yet loading it raises nothing; the first record is
    rejected only when it is resolved, the second never. *)
Lemma malformed_catalog_loads :
  well_formed_library malformed_catalog = false
  /\ Seg.load_style_library malformed_catalog = Ok malformed_catalog
  /\ Seg.recommend_style_for_region "main_walls" "modern" malformed_catalog
       zero_source = Raise KeyError
  /\ ~ (forall document,
          well_formed_library document = false ->
          exists e, Seg.load_style_library document = Raise e).
Proof.
  split; [reflexivity|]. split; [reflexivity|]. split; [reflexivity|].
  intros Hclaim.
  destruct (Hclaim malformed_catalog eq_refl) as [e He].
  discriminate He.
Qed.

(** * Compositing: the styling step *)

Lemma bind_Ok {A B : Type} (m : result A) (k : A -> result B) (b : B) :
  bind m k = Ok b -> exists a, m = Ok a /\ k a = Ok b.
Proof.
  destruct m as [a|e]; simpl; [|discriminate]. intros H. now exists a.
Qed.

Ltac bind_inv H :=
  let a := fresh "a" in
  let Ha := fresh "Ha" in
  apply bind_Ok in H; destruct H as (a & Ha & H).

Lemma setitem_mask_Ok (image : Image) (mask : Mask) (color : Pixel)
    (out : Image) :
  setitem_mask image mask color = Ok out ->
  index_fits image mask = true /\ u8_pixel color = true
  /\ img_h out = img_h image /\ img_w out = img_w image
  /\ forall y x, img_at out y x =
                 if mask_set mask y x then color else img_at image y x.
Proof.
  unfold setitem_mask, u8_pixel.
  destruct (index_fits image mask); [|discriminate].
  destruct (u8 (chan_b color) && u8 (chan_g color) && u8 (chan_r color));
    [|discriminate].
  intros [= <-]. simpl. repeat split.
Qed.

Lemma index_fits_dims (image image' : Image) (mask : Mask) :
  img_h image' = img_h image -> img_w image' = img_w image ->
  index_fits image' mask = index_fits image mask.
Proof. unfold index_fits. now intros -> ->. Qed.

Lemma style_masks_Ok (original_img : Image) (style : string)
    (style_library : StyleLibrary) (masks : list MaskDict) :
  forall (output_img : Image) (rng : RandomSource) (out : Image)
         (rng' : RandomSource),
    Seg.style_masks original_img output_img masks style style_library rng =
      Ok (out, rng') ->
    exists colors,
      resolved_colors original_img masks style style_library rng =
        Ok (colors, rng')
      /\ List.length colors = List.length masks
      /\ Forall (fun m => index_fits output_img (segmentation m) = true) masks
      /\ Forall (fun c => u8_pixel c = true) colors
      /\ img_h out = img_h output_img /\ img_w out = img_w output_img
      /\ last_write_wins masks colors output_img out.
Proof.
  induction masks as [|mask_dict masks IH]; intros output_img rng out rng' H.
  - simpl in H. injection H as <- <-. exists []. simpl.
    repeat split; try constructor.
    + intros k m c Hk. destruct k; discriminate Hk.
  - simpl in H.
    bind_inv H. rename a into region_type, Ha into Hclass.
    bind_inv H. destruct a as [fields rng1]. rename Ha into Hrec.
    destruct fields as [[[[[color texture] material] finish] rating] keywords].
    bind_inv H. rename a into color_bgr, Ha into Hhex.
    bind_inv H. rename a into out1, Ha into Hset.
    destruct (setitem_mask_Ok _ _ _ _ Hset) as (Hshape & Hu8 & Hh1 & Hw1 & Hpix).
    destruct (IH _ _ _ _ H)
      as (colors & Hres & Hlen & Hshapes & Hu8s & Hh & Hw & Hlast).
    exists (color_bgr :: colors). simpl.
    rewrite Hclass. simpl. rewrite Hrec. simpl. rewrite Hhex. simpl.
    rewrite Hres. simpl.
    split; [reflexivity|]. split; [now rewrite Hlen|].
    split.
    { constructor; [exact Hshape|].
      eapply Forall_impl; [|exact Hshapes]. intros m Hm. simpl in Hm.
      now rewrite (index_fits_dims output_img out1) in Hm. }
    split; [now constructor|].
    split; [congruence|]. split; [congruence|].
    intros y x. destruct (Hlast y x) as [Hcover Hnone]. split.
    + intros k m c Hk Hc Hm Hlater. destruct k as [|k].
      * simpl in Hk, Hc. injection Hk as <-. injection Hc as <-.
        rewrite Hnone.
        -- rewrite Hpix, Hm. reflexivity.
        -- intros k' m' Hk'. apply (Hlater (S k') m'); [lia|exact Hk'].
      * simpl in Hk, Hc. apply (Hcover k m c Hk Hc Hm).
        intros k' m' Hlt Hk'. apply (Hlater (S k') m'); [lia|exact Hk'].
    + intros Hall. rewrite Hnone.
      * rewrite Hpix. now rewrite (Hall 0%nat mask_dict eq_refl).
      * intros k m Hk. apply (Hall (S k) m Hk).
Qed.

Lemma style_masks_total (original_img : Image) (style : string)
    (style_library : StyleLibrary) (masks : list MaskDict) :
  forall (output_img : Image) (rng : RandomSource) (colors : list Pixel)
         (rng' : RandomSource),
    resolved_colors original_img masks style style_library rng =
      Ok (colors, rng') ->
    Forall (fun m => index_fits output_img (segmentation m) = true) masks ->
    Forall (fun c => u8_pixel c = true) colors ->
    exists out,
      Seg.style_masks original_img output_img masks style style_library rng =
        Ok (out, rng').
Proof.
  induction masks as [|mask_dict masks IH];
    intros output_img rng colors rng' Hres Hshapes Hu8s.
  - simpl in Hres. injection Hres as <- <-. now exists output_img.
  - simpl in Hres.
    bind_inv Hres. rename a into region_type, Ha into Hclass.
    bind_inv Hres. destruct a as [fields rng1]. rename Ha into Hrec.
    bind_inv Hres. rename a into color_bgr, Ha into Hhex.
    bind_inv Hres. destruct a as [colors' rng2]. rename Ha into Hrest.
    injection Hres as <- <-.
    inversion Hshapes as [|? ? Hshape Hshapes']; subst.
    inversion Hu8s as [|? ? Hu8 Hu8s']; subst.
    destruct fields as [[[[[color texture] material] finish] rating] keywords].
    simpl in Hhex. simpl.
    rewrite Hclass. simpl. rewrite Hrec. simpl. rewrite Hhex. simpl.
    unfold setitem_mask. rewrite Hshape.
    unfold u8_pixel in Hu8. rewrite Hu8. simpl.
    eapply IH; [exact Hrest| |exact Hu8s'].
    eapply Forall_impl; [|exact Hshapes']. intros m Hm. exact Hm.
Qed.

(** C6. The styling step succeeds exactly when a color can be resolved
    for every mask, every mask fits the image as a boolean index (each of
    its axes has the length of the image's, or length 0) and the colors
    are 8-bit; its result has the size of the original, every pixel
    covered by some mask (a set entry of its array) has the color
    resolved for the last mask, in processing order, that covers it (in
    the image's channel order), and every pixel covered by no mask is the
    pixel of the original. *)
Theorem styling_last_write_wins (original_img : Image)
    (masks : list MaskDict) (style : string) (style_library : StyleLibrary)
    (rng rng' : RandomSource) :
  ((exists out,
      Seg.apply_style_recommendations original_img masks style
        style_library rng = Ok (out, rng'))
   <->
   (exists colors,
      resolved_colors original_img masks style style_library rng =
        Ok (colors, rng')
      /\ Forall (fun m => index_fits original_img (segmentation m) = true) masks
      /\ Forall (fun c => u8_pixel c = true) colors))
  /\ forall out,
       Seg.apply_style_recommendations original_img masks style
         style_library rng = Ok (out, rng') ->
       exists colors,
         resolved_colors original_img masks style style_library rng =
           Ok (colors, rng')
         /\ List.length colors = List.length masks
         /\ img_h out = img_h original_img
         /\ img_w out = img_w original_img
         /\ last_write_wins masks colors original_img out.
Proof.
  unfold Seg.apply_style_recommendations. split; [split|].
  - intros [out H]. apply style_masks_Ok in H.
    destruct H as (colors & Hres & _ & Hshapes & Hu8s & _).
    exists colors. repeat split; assumption.
  - intros (colors & Hres & Hshapes & Hu8s).
    eapply style_masks_total; eassumption.
  - intros out H. apply style_masks_Ok in H.
    destruct H as (colors & Hres & Hlen & _ & _ & Hh & Hw & Hlast).
    exists colors. repeat split; try assumption.
    + apply Hlast.
    + apply Hlast.
Qed.

Lemma styling_last_write_wins_witness :
  exists out,
    Seg.apply_style_recommendations (plain_image 4 4 (1, 2, 3))
      [upper_mask; lower_mask] "modern" two_color_catalog counting_source =
      Ok (out, advance (advance counting_source))
    /\ img_at out 0%nat 0%nat = (0, 0, 255)
    /\ img_at out 1%nat 0%nat = (204, 187, 170)
    /\ img_at out 1%nat 3%nat = (1, 2, 3).
Proof.
  destruct (styling_last_write_wins (plain_image 4 4 (1, 2, 3))
              [upper_mask; lower_mask] "modern" two_color_catalog
              counting_source (advance (advance counting_source)))
    as [[_ Hexists] Hpixels].
  destruct Hexists as [out Hout].
  { exists [(0, 0, 255); (204, 187, 170)].
    split; [vm_compute; reflexivity|].
    split; repeat constructor. }
  exists out. split; [exact Hout|].
  destruct (Hpixels out Hout) as (colors & Hres & _ & _ & _ & Hlast).
  assert (Hcolors : colors = [(0, 0, 255); (204, 187, 170)]).
  { assert (Hcomputed :
      resolved_colors (plain_image 4 4 (1, 2, 3)) [upper_mask; lower_mask]
        "modern" two_color_catalog counting_source =
      Ok ([(0, 0, 255); (204, 187, 170)], advance (advance counting_source)))
      by (vm_compute; reflexivity).
    rewrite Hcomputed in Hres. now injection Hres as <-. }
  subst colors. repeat split.
  - apply (proj1 (Hlast 0%nat 0%nat) 0%nat upper_mask); try reflexivity.
    intros [|[|[|k']]] m' Hlt Hk'; try lia; simpl in Hk';
      try discriminate Hk'; now injection Hk' as <-.
  - apply (proj1 (Hlast 1%nat 0%nat) 1%nat lower_mask); try reflexivity.
    intros [|[|[|k']]] m' Hlt Hk'; try lia; simpl in Hk';
      try discriminate Hk'.
  - apply (proj2 (Hlast 1%nat 3%nat)).
    intros [|[|[|k]]] m Hk; simpl in Hk; try discriminate Hk;
      now injection Hk as <-.
Defined.

(** * Compositing: the blending step *)

Lemma saturate_cast_u8_range (f : float) : u8 (saturate_cast_u8 f) = true.
Proof.
  unfold u8, saturate_cast_u8.
  apply andb_true_intro. rewrite !Z.leb_le.
  destruct (Prim2SF f) as [s|s| |s m e]; try destruct s; lia.
Qed.

Lemma u8_byte_values (z : Z) : u8 z = true -> In z byte_values.
Proof.
  unfold u8. rewrite andb_true_iff, !Z.leb_le. intros [Hlo Hhi].
  unfold byte_values. rewrite <- (Z2Nat.id z) by exact Hlo.
  apply in_map. apply in_seq. lia.
Qed.

(** The product of a channel value and the weight 0 is 0. *)
Lemma byte_times_zero (b : Z) :
  In b byte_values -> (Z2F b * 0)%float = 0%float.
Proof.
  intros H. unfold byte_values in H. cbn in H.
  repeat (destruct H as [<-|H]; [reflexivity|]). destruct H.
Qed.

(** With weights 1 and 0 a channel keeps the value of the first image;
    with weights 0 and 1 it takes that of the second.  The 256 channel
    values are checked by evaluation. *)
Lemma add_weighted_channel_alpha_0 (a b : Z) :
  u8 a = true -> u8 b = true ->
  Seg.add_weighted_channel a (1 - 0)%float b 0%float 0%float = a.
Proof.
  intros Ha Hb. apply u8_byte_values in Ha. apply u8_byte_values in Hb.
  unfold Seg.add_weighted_channel. rewrite (byte_times_zero b Hb).
  assert (Hall :
    forallb (fun a =>
      saturate_cast_u8 (Z2F a * (1 - 0) + 0 + 0)%float =? a)
      byte_values = true) by (vm_compute; reflexivity).
  rewrite forallb_forall in Hall. specialize (Hall a Ha).
  now apply Z.eqb_eq.
Qed.

Lemma add_weighted_channel_alpha_1 (a b : Z) :
  u8 a = true -> u8 b = true ->
  Seg.add_weighted_channel a (1 - 1)%float b 1%float 0%float = b.
Proof.
  intros Ha Hb. apply u8_byte_values in Ha. apply u8_byte_values in Hb.
  unfold Seg.add_weighted_channel.
  change (1 - 1)%float with 0%float. rewrite (byte_times_zero a Ha).
  assert (Hall :
    forallb (fun b =>
      saturate_cast_u8 (0 + Z2F b * 1 + 0)%float =? b)
      byte_values = true) by (vm_compute; reflexivity).
  rewrite forallb_forall in Hall. specialize (Hall b Hb).
  now apply Z.eqb_eq.
Qed.

Lemma u8_pixel_channels (p : Pixel) :
  u8_pixel p = true ->
  u8 (chan_b p) = true /\ u8 (chan_g p) = true /\ u8 (chan_r p) = true.
Proof.
  unfold u8_pixel. rewrite !andb_true_iff. tauto.
Qed.

Lemma pixel_eta (p : Pixel) : (chan_b p, chan_g p, chan_r p) = p.
Proof. now destruct p as [[b g] r]. Qed.

(** C7. For an original and a styled image of equal dimensions, blending
    succeeds for every factor and gives, per channel and pixel, the value
    [original * (1 - alpha) + styled * alpha] rounded and clamped to
    0..255; with factor 0 the blended image is the original, and with
    factor 1 it is the styled image. *)
Theorem blend_endpoints (original styled : Image) :
  img_h original = img_h styled ->
  img_w original = img_w styled ->
  uint8_image original ->
  uint8_image styled ->
  (forall alpha, exists blended,
      Seg.blend original styled alpha = Ok blended
      /\ img_h blended = img_h original /\ img_w blended = img_w original
      /\ forall y x,
           u8_pixel (img_at blended y x) = true
           /\ img_at blended y x =
              (saturate_cast_u8
                 (Z2F (chan_b (img_at original y x)) * (1 - alpha)
                  + Z2F (chan_b (img_at styled y x)) * alpha + 0)%float,
               saturate_cast_u8
                 (Z2F (chan_g (img_at original y x)) * (1 - alpha)
                  + Z2F (chan_g (img_at styled y x)) * alpha + 0)%float,
               saturate_cast_u8
                 (Z2F (chan_r (img_at original y x)) * (1 - alpha)
                  + Z2F (chan_r (img_at styled y x)) * alpha + 0)%float))
  /\ (exists blended,
        Seg.blend original styled 0%float = Ok blended
        /\ forall y x, (y < img_h original)%nat -> (x < img_w original)%nat ->
                       img_at blended y x = img_at original y x)
  /\ (exists blended,
        Seg.blend original styled 1%float = Ok blended
        /\ forall y x, (y < img_h original)%nat -> (x < img_w original)%nat ->
                       img_at blended y x = img_at styled y x).
Proof.
  intros Hh Hw Horig Hstyled.
  assert (Hblend : forall alpha, exists blended,
    Seg.blend original styled alpha = Ok blended
    /\ img_h blended = img_h original /\ img_w blended = img_w original
    /\ forall y x, img_at blended y x =
         (Seg.add_weighted_channel (chan_b (img_at original y x))
            (1 - alpha)%float (chan_b (img_at styled y x)) alpha 0%float,
          Seg.add_weighted_channel (chan_g (img_at original y x))
            (1 - alpha)%float (chan_g (img_at styled y x)) alpha 0%float,
          Seg.add_weighted_channel (chan_r (img_at original y x))
            (1 - alpha)%float (chan_r (img_at styled y x)) alpha 0%float)).
  { intros alpha. unfold Seg.blend, Seg.add_weighted.
    rewrite Hh, Hw, !Nat.eqb_refl. simpl.
    eexists. split; [reflexivity|]. simpl. repeat split; congruence. }
  split; [|split].
  - intros alpha. destruct (Hblend alpha) as (blended & Hb & Hbh & Hbw & Hpix).
    exists blended. repeat split; try assumption.
    + rewrite Hpix. unfold u8_pixel, chan_b, chan_g, chan_r. simpl.
      unfold Seg.add_weighted_channel.
      now rewrite !saturate_cast_u8_range.
    + apply Hpix.
  - destruct (Hblend 0%float) as (blended & Hb & _ & _ & Hpix).
    exists blended. split; [exact Hb|]. intros y x Hy Hx.
    rewrite Hpix.
    destruct (u8_pixel_channels _ (Horig y x Hy Hx)) as (Ob & Og & Or).
    rewrite Hh in Hy. rewrite Hw in Hx.
    destruct (u8_pixel_channels _ (Hstyled y x Hy Hx)) as (Sb & Sg & Sr).
    rewrite !add_weighted_channel_alpha_0 by assumption.
    apply pixel_eta.
  - destruct (Hblend 1%float) as (blended & Hb & _ & _ & Hpix).
    exists blended. split; [exact Hb|]. intros y x Hy Hx.
    rewrite Hpix.
    destruct (u8_pixel_channels _ (Horig y x Hy Hx)) as (Ob & Og & Or).
    rewrite Hh in Hy. rewrite Hw in Hx.
    destruct (u8_pixel_channels _ (Hstyled y x Hy Hx)) as (Sb & Sg & Sr).
    rewrite !add_weighted_channel_alpha_1 by assumption.
    apply pixel_eta.
Qed.

Lemma blend_endpoints_witness :
  (exists blended,
     Seg.blend (plain_image 4 4 (1, 2, 3)) (plain_image 4 4 (204, 187, 170))
       0%float = Ok blended
     /\ forall y x, (y < 4)%nat -> (x < 4)%nat ->
                    img_at blended y x = (1, 2, 3))
  /\ (exists blended,
        Seg.blend (plain_image 4 4 (1, 2, 3)) (plain_image 4 4 (204, 187, 170))
          1%float = Ok blended
        /\ forall y x, (y < 4)%nat -> (x < 4)%nat ->
                       img_at blended y x = (204, 187, 170)).
Proof.
  apply (blend_endpoints (plain_image 4 4 (1, 2, 3))
           (plain_image 4 4 (204, 187, 170))).
  - reflexivity.
  - reflexivity.
  - intros y x _ _. reflexivity.
  - intros y x _ _. reflexivity.
Defined.

(** * The two copies of the source *)

Lemma hex_to_bgr_copies (hex_color : json) :
  Seg.hex_to_bgr hex_color = ScriptsSeg.hex_to_bgr hex_color.
Proof. reflexivity. Qed.

Lemma classify_region_copies (mask : Mask) (image : option Image) :
  Seg.classify_region mask image = ScriptsSeg.classify_region mask image.
Proof.
  unfold Seg.classify_region, Seg.region_stats, ScriptsSeg.classify_region.
  destruct (map (fun yx => Z.of_nat (fst yx)) (np_where mask)) as [|y0 ys'];
    [reflexivity|].
  destruct (map (fun yx => Z.of_nat (snd yx)) (np_where mask)) as [|x0 xs'];
    [reflexivity|].
  cbv zeta.
  match goal with
  | |- bind (bind ?m _) _ = bind ?m _ => destruct m as [[[b g] r]|e]
  end; [|reflexivity].
  cbn [bind]. unfold Seg.classify_stats, Seg.roof_rule, Seg.balcony_rule,
    Seg.pillars_rule, Seg.side_walls_rule, Seg.upper_walls_rule,
    Seg.main_walls_rule, Seg.doors_shape, Seg.doors_dark, Seg.windows_shape,
    Seg.windows_blue.
  cbn [h w box_height box_width box_area mask_area area_ratio aspect
       center_y center_x avg_b avg_g avg_r].
  repeat match goal with
  | |- context [if ?c then _ else _] =>
      lazymatch c with
      | context [if _ then _ else _] => fail
      | _ => destruct c eqn:?
      end
  end; reflexivity.
Qed.

Lemma scan_regions_copies (regions : list string) (style : string)
    (style_library : StyleLibrary) (style_list : list StyleRecord) :
  Seg.scan_regions regions style style_library style_list =
  ScriptsSeg.scan_regions regions style style_library style_list.
Proof.
  induction regions as [|region regions IH]; [reflexivity|].
  simpl. rewrite IH. reflexivity.
Qed.

Lemma recommend_style_for_region_copies (region_type style : string)
    (style_library : StyleLibrary) (rng : RandomSource) :
  Seg.recommend_style_for_region region_type style style_library rng =
  ScriptsSeg.recommend_style_for_region region_type style style_library rng.
Proof.
  unfold Seg.recommend_style_for_region, Seg.candidates,
    ScriptsSeg.recommend_style_for_region.
  cbv zeta. rewrite scan_regions_copies. reflexivity.
Qed.

Lemma style_masks_copies (original_img : Image) (masks : list MaskDict)
    (style : string) (style_library : StyleLibrary) :
  forall (output_img : Image) (rng : RandomSource),
    Seg.style_masks original_img output_img masks style style_library rng =
    ScriptsSeg.style_masks original_img output_img masks style style_library
      rng.
Proof.
  induction masks as [|mask_dict masks IH]; intros output_img rng;
    [reflexivity|].
  simpl. rewrite classify_region_copies.
  destruct (ScriptsSeg.classify_region (segmentation mask_dict)
              (Some original_img)) as [region_type|e]; [|reflexivity].
  simpl. rewrite recommend_style_for_region_copies.
  destruct (ScriptsSeg.recommend_style_for_region (label_str region_type)
              style style_library rng) as [[fields rng1]|e]; [|reflexivity].
  destruct fields as [[[[[color texture] material] finish] rating] keywords].
  simpl. change (ScriptsSeg.hex_to_bgr color) with (Seg.hex_to_bgr color).
  destruct (Seg.hex_to_bgr color) as [color_bgr|e]; [|reflexivity].
  simpl. destruct (setitem_mask output_img (segmentation mask_dict) color_bgr)
    as [out1|e]; [|reflexivity].
  simpl. apply IH.
Qed.

(** C10. The functions [hex_to_bgr], [classify_region],
    [recommend_style_for_region] and [apply_style_recommendations] of
    [src/python/seg.py] and those of [src/python/scripts/seg.py] agree on
    all inputs: same result or same exception, and the same state of the
    random source afterwards. *)
Theorem source_copies_agree :
  (forall hex_color,
      Seg.hex_to_bgr hex_color = ScriptsSeg.hex_to_bgr hex_color)
  /\ (forall mask image,
        Seg.classify_region mask image =
        ScriptsSeg.classify_region mask image)
  /\ (forall region_type style style_library rng,
        Seg.recommend_style_for_region region_type style style_library rng =
        ScriptsSeg.recommend_style_for_region region_type style
          style_library rng)
  /\ (forall original_img masks style style_library rng,
        Seg.apply_style_recommendations original_img masks style
          style_library rng =
        ScriptsSeg.apply_style_recommendations original_img masks style
          style_library rng).
Proof.
  split; [exact hex_to_bgr_copies|].
  split; [exact classify_region_copies|].
  split; [exact recommend_style_for_region_copies|].
  intros original_img masks style style_library rng.
  apply style_masks_copies.
Qed.

(** * Examples *)

(** A hex color in the channel order of the image. *)
Example hex_to_bgr_red :
  Seg.hex_to_bgr (JStr "#FF0000") = Ok (0, 0, 255).
Proof. reflexivity. Qed.

(** Colors that are not six hexadecimal digits: a name, a value that is
    not a string, and a signed digit, which [int] accepts and the image
    cannot hold. *)
Example hex_to_bgr_malformed :
  Seg.hex_to_bgr (JStr "red") = Raise ValueError
  /\ Seg.hex_to_bgr (JInt 255) = Raise AttributeError
  /\ Seg.hex_to_bgr (JStr "#-1-2-3") = Ok (-3, -2, -1)
  /\ setitem_mask (plain_image 4 4 (0, 0, 0)) (empty_mask 4 4) (-3, -2, -1) =
     Raise OverflowError.
Proof. repeat split. Qed.

(** A band at the top of the image satisfies the roof rule and the shape
    test of the windows rule; the earlier rule wins. *)
Example roof_before_windows :
  exists s,
    Seg.region_stats (block_mask 20 20 0 1 0 19) None = Ok (Some s)
    /\ Seg.roof_rule s = true
    /\ Seg.windows_shape s = true
    /\ Seg.classify_region (block_mask 20 20 0 1 0 19) None = Ok roof.
Proof.
  eexists. split; [vm_compute; reflexivity|].
  repeat split; vm_compute; reflexivity.
Qed.

(** A dark doors-shaped region is [doors]; the same region over a light
    image falls through to the catch-all. *)
Example doors_need_dark_color :
  Seg.classify_region (block_mask 10 10 8 9 4 5)
    (Some (plain_image 10 10 (30, 30, 30))) = Ok doors
  /\ Seg.classify_region (block_mask 10 10 8 9 4 5)
       (Some (plain_image 10 10 (200, 200, 200))) = Ok main_walls.
Proof. split; vm_compute; reflexivity. Qed.

(** An image of another shape than the mask is an error, unless the mask
    is empty. *)
Example classify_region_shape_mismatch :
  Seg.classify_region (block_mask 10 10 8 9 4 5)
    (Some (plain_image 3 5 (0, 0, 0))) = Raise IndexError.
Proof. vm_compute. reflexivity. Qed.

(** Blending black with [#AABBCC] at factor 0.5: ties are rounded to
    even. *)
Example blend_half :
  Seg.add_weighted_channel 0 (1 - 0.5) 204 0.5 0 = 102
  /\ Seg.add_weighted_channel 0 (1 - 0.5) 187 0.5 0 = 94
  /\ Seg.add_weighted_channel 0 (1 - 0.5) 170 0.5 0 = 85.
Proof. repeat split; vm_compute; reflexivity. Qed.

(** * Color strings *)

Lemma hex_digit_range (c : ascii) (d : Z) :
  hex_digit c = Some d -> 0 <= d <= 15.
Proof.
  unfold hex_digit.
  destruct (Nat.leb 48 (nat_of_ascii c) && Nat.leb (nat_of_ascii c) 57)%bool eqn:E1.
  { apply andb_true_iff in E1. destruct E1 as [L U].
    apply Nat.leb_le in L, U. intros [= <-]. lia. }
  destruct (Nat.leb 97 (nat_of_ascii c) && Nat.leb (nat_of_ascii c) 102)%bool eqn:E2.
  { apply andb_true_iff in E2. destruct E2 as [L U].
    apply Nat.leb_le in L, U. intros [= <-]. lia. }
  destruct (Nat.leb 65 (nat_of_ascii c) && Nat.leb (nat_of_ascii c) 70)%bool eqn:E3.
  { apply andb_true_iff in E3. destruct E3 as [L U].
    apply Nat.leb_le in L, U. intros [= <-]. lia. }
  discriminate.
Qed.

(** A hexadecimal digit is neither a space, nor a sign, nor [#]. *)
Lemma hex_digit_plain (c : ascii) (d : Z) :
  hex_digit c = Some d ->
  is_space c = false /\ Ascii.eqb c "+" = false /\ Ascii.eqb c "-" = false
  /\ Ascii.eqb c "#" = false.
Proof.
  destruct c as [b0 b1 b2 b3 b4 b5 b6 b7].
  destruct b0, b1, b2, b3, b4, b5, b6, b7; cbv;
    first [discriminate | intros _; repeat split].
Qed.

(** [int] on two hexadecimal digits. *)
Lemma int_base16_two_digits (c1 c2 : ascii) (d1 d2 : Z) :
  hex_digit c1 = Some d1 -> hex_digit c2 = Some d2 ->
  int_base16 (String c1 (String c2 EmptyString)) = Ok (16 * d1 + d2).
Proof.
  intros H1 H2.
  destruct (hex_digit_plain c1 d1 H1) as (S1 & P1 & M1 & _).
  unfold int_base16. cbn [list_ascii_of_string skip_spaces].
  rewrite S1, P1, M1. cbn [read_digits]. rewrite H1, H2.
  cbn [skip_spaces]. reflexivity.
Qed.

(** X1. A color [#RRGGBB] of six hexadecimal digits converts without
    error to the triple (blue, green, red): the value of the last two
    digits first and that of the first two last, each in 0..255. *)
Theorem hex_to_bgr_six_digits (r1 r2 g1 g2 b1 b2 : ascii)
    (vr1 vr2 vg1 vg2 vb1 vb2 : Z) :
  hex_digit r1 = Some vr1 -> hex_digit r2 = Some vr2 ->
  hex_digit g1 = Some vg1 -> hex_digit g2 = Some vg2 ->
  hex_digit b1 = Some vb1 -> hex_digit b2 = Some vb2 ->
  Seg.hex_to_bgr
    (JStr (String "#" (String r1 (String r2 (String g1 (String g2
             (String b1 (String b2 EmptyString)))))))) =
    Ok (16 * vb1 + vb2, 16 * vg1 + vg2, 16 * vr1 + vr2)
  /\ u8_pixel (16 * vb1 + vb2, 16 * vg1 + vg2, 16 * vr1 + vr2) = true.
Proof.
  intros Hr1 Hr2 Hg1 Hg2 Hb1 Hb2. split.
  - destruct (hex_digit_plain r1 vr1 Hr1) as (_ & _ & _ & Hhash).
    unfold Seg.hex_to_bgr. cbn [lstrip_hash]. rewrite Ascii.eqb_refl.
    cbn [lstrip_hash]. rewrite Hhash. cbn [substring].
    rewrite (int_base16_two_digits r1 r2 vr1 vr2 Hr1 Hr2). cbn [bind].
    rewrite (int_base16_two_digits g1 g2 vg1 vg2 Hg1 Hg2). cbn [bind].
    rewrite (int_base16_two_digits b1 b2 vb1 vb2 Hb1 Hb2). reflexivity.
  - apply hex_digit_range in Hr1, Hr2, Hg1, Hg2, Hb1, Hb2.
    unfold u8_pixel, u8, chan_b, chan_g, chan_r. cbn [fst snd].
    rewrite !andb_true_iff, !Z.leb_le. lia.
Qed.

Lemma hex_to_bgr_six_digits_witness :
  Seg.hex_to_bgr (JStr "#AABBCC") = Ok (204, 187, 170)
  /\ u8_pixel (204, 187, 170) = true.
Proof.
  apply (hex_to_bgr_six_digits "A" "A" "B" "B" "C" "C" 10 10 11 11 12 12);
    reflexivity.
Defined.

Lemma lstrip_hash_append (s t : string) :
  lstrip_hash s <> EmptyString ->
  lstrip_hash (s ++ t)%string = (lstrip_hash s ++ t)%string.
Proof.
  induction s as [|c s IH]; simpl; [congruence|].
  destruct (Ascii.eqb c "#"); [exact IH|reflexivity].
Qed.

Lemma substring_append (n m : nat) (u t : string) :
  (n + m <= String.length u)%nat ->
  substring n m (u ++ t)%string = substring n m u.
Proof.
  revert n m. induction u as [|c u IH]; intros n m Hlen.
  - simpl in Hlen. assert (n = 0%nat) by lia. assert (m = 0%nat) by lia.
    subst. simpl. now destruct t.
  - destruct n as [|n]; simpl.
    + destruct m as [|m]; [reflexivity|].
      simpl in Hlen. f_equal. apply (IH 0%nat m). simpl. lia.
    + apply IH. simpl in Hlen. lia.
Qed.

(** X2. Whatever follows the first six characters after the leading
    [#]s is ignored: a color with more characters, such as one with an
    alpha component, converts like its first six. *)
Theorem hex_to_bgr_ignores_tail (s t : string) :
  (6 <= String.length (lstrip_hash s))%nat ->
  Seg.hex_to_bgr (JStr (s ++ t)) = Seg.hex_to_bgr (JStr s).
Proof.
  intros Hlen. unfold Seg.hex_to_bgr.
  rewrite lstrip_hash_append
    by (intros E; rewrite E in Hlen; simpl in Hlen; lia).
  rewrite !substring_append by lia. reflexivity.
Qed.

Lemma hex_to_bgr_ignores_tail_witness :
  Seg.hex_to_bgr (JStr ("#AABBCC" ++ "80")) = Seg.hex_to_bgr (JStr "#AABBCC").
Proof.
  apply (hex_to_bgr_ignores_tail "#AABBCC" "80"). simpl. lia.
Defined.

Lemma int_base16_raises (s : string) (e : exn) :
  int_base16 s = Raise e -> e = ValueError.
Proof.
  unfold int_base16.
  destruct (skip_spaces (list_ascii_of_string s)) as [|c l].
  - simpl. congruence.
  - destruct (Ascii.eqb c "+"); [|destruct (Ascii.eqb c "-")];
      match goal with
      | |- context [read_digits None ?l] =>
          destruct (read_digits None l) as [[n|] rest]
      end;
      try destruct (skip_spaces rest); congruence.
Qed.

Lemma substring_beyond (n m : nat) (u : string) :
  (String.length u <= n)%nat -> substring n m u = EmptyString.
Proof.
  revert n. induction u as [|c u IH]; intros n Hlen.
  - destruct n, m; reflexivity.
  - destruct n as [|n]; simpl in Hlen; [lia|]. simpl. apply IH. lia.
Qed.

(** X3. The conversion raises AttributeError exactly for a value that is
    not a string, and ValueError, nothing else, for a string it cannot
    read; a string with at most four characters after the leading [#]s,
    such as the short form [#FFF], is always refused. *)
Theorem hex_to_bgr_errors (hex_color : json) :
  (forall e, Seg.hex_to_bgr hex_color = Raise e ->
     match hex_color with
     | JStr _ => e = ValueError
     | _ => e = AttributeError
     end)
  /\ (forall s, hex_color = JStr s ->
        (String.length (lstrip_hash s) <= 4)%nat ->
        Seg.hex_to_bgr hex_color = Raise ValueError)
  /\ ((forall s, hex_color <> JStr s) ->
      Seg.hex_to_bgr hex_color = Raise AttributeError).
Proof.
  split; [|split].
  - intros e. destruct hex_color; simpl; try congruence.
    destruct (int_base16 (substring 0 2 (lstrip_hash s))) eqn:Er; simpl;
      [|intros [= <-]; now apply (int_base16_raises _ _ Er)].
    destruct (int_base16 (substring 2 2 (lstrip_hash s))) eqn:Eg; simpl;
      [|intros [= <-]; now apply (int_base16_raises _ _ Eg)].
    destruct (int_base16 (substring 4 2 (lstrip_hash s))) eqn:Eb; simpl;
      [discriminate|intros [= <-]; now apply (int_base16_raises _ _ Eb)].
  - intros s -> Hlen. simpl.
    rewrite (substring_beyond 4 2 (lstrip_hash s) Hlen).
    destruct (int_base16 (substring 0 2 (lstrip_hash s))) eqn:Er; simpl;
      [|now rewrite (int_base16_raises _ _ Er)].
    destruct (int_base16 (substring 2 2 (lstrip_hash s))) eqn:Eg; simpl;
      [|now rewrite (int_base16_raises _ _ Eg)].
    reflexivity.
  - intros Hns. destruct hex_color; try reflexivity.
    exfalso. now apply (Hns s).
Qed.

Lemma hex_to_bgr_errors_witness :
  Seg.hex_to_bgr (JStr "#FFF") = Raise ValueError
  /\ Seg.hex_to_bgr (JList []) = Raise AttributeError.
Proof.
  split.
  - apply (proj1 (proj2 (hex_to_bgr_errors (JStr "#FFF"))) "#FFF");
      [reflexivity|simpl; lia].
  - apply (proj2 (proj2 (hex_to_bgr_errors (JList [])))).
    intros s. discriminate.
Defined.

Lemma substring_length_le (n m : nat) (u : string) :
  (String.length (substring n m u) <= m)%nat.
Proof.
  revert n m. induction u as [|c u IH]; intros n m.
  - destruct n, m; simpl; lia.
  - destruct n as [|n]; simpl.
    + destruct m as [|m]; simpl; [lia|]. specialize (IH 0%nat m). lia.
    + apply IH.
Qed.

(** On at most two characters [int] reads one or two digits, or a sign
    and one digit. *)
Lemma int_base16_short_range (s : string) (v : Z) :
  (String.length s <= 2)%nat -> int_base16 s = Ok v -> -15 <= v <= 255.
Proof.
  intros Hlen.
  destruct s as [|c1 [|c2 [|c3 s]]]; [| | |simpl in Hlen; lia];
    unfold int_base16; cbn [list_ascii_of_string skip_spaces].
  - discriminate.
  - destruct (is_space c1); cbn [skip_spaces read_digits]; [discriminate|].
    destruct (Ascii.eqb c1 "+"); cbn [read_digits]; [discriminate|].
    destruct (Ascii.eqb c1 "-"); cbn [read_digits]; [discriminate|].
    destruct (hex_digit c1) as [d1|] eqn:H1; [|discriminate].
    apply hex_digit_range in H1. cbn [skip_spaces]. intros [= <-]. lia.
  - destruct (is_space c1) eqn:S1.
    + destruct (is_space c2); cbn [skip_spaces read_digits]; [discriminate|].
      destruct (Ascii.eqb c2 "+"); cbn [read_digits]; [discriminate|].
      destruct (Ascii.eqb c2 "-"); cbn [read_digits]; [discriminate|].
      destruct (hex_digit c2) as [d2|] eqn:H2; [|discriminate].
      apply hex_digit_range in H2. cbn [skip_spaces]. intros [= <-]. lia.
    + assert (Hone : forall negative,
        match read_digits None [c2] with
        | (Some n, rest) =>
            match skip_spaces rest with
            | [] => Ok (if negative : bool then - n else n)
            | _ :: _ => Raise ValueError
            end
        | (None, _) => Raise ValueError
        end = Ok v -> -15 <= v <= 255).
      { intros negative. cbn [read_digits].
        destruct (hex_digit c2) as [d2|] eqn:H2; [|discriminate].
        apply hex_digit_range in H2. cbn [skip_spaces].
        intros [= <-]. destruct negative; lia. }
      destruct (Ascii.eqb c1 "+"); [exact (Hone false)|].
      destruct (Ascii.eqb c1 "-"); [exact (Hone true)|].
      cbn [read_digits].
      destruct (hex_digit c1) as [d1|] eqn:H1; [|discriminate].
      apply hex_digit_range in H1.
      destruct (hex_digit c2) as [d2|] eqn:H2.
      * apply hex_digit_range in H2. cbn [skip_spaces]. clear Hone.
        intros Hv. assert (v = 16 * (16 * 0 + d1) + d2) by congruence. lia.
      * cbn [skip_spaces]. destruct (is_space c2); cbn [skip_spaces];
          [|discriminate]. clear Hone.
        intros Hv. assert (v = 16 * 0 + d1) by congruence. lia.
Qed.

(** X4. When the conversion returns, each of the three values lies
    between -15 and 255: a sign in front of a digit is read as part of the
    number, so a value can be negative, and no value exceeds two digits. *)
Theorem hex_to_bgr_range (hex_color : json) (b g r : Z) :
  Seg.hex_to_bgr hex_color = Ok (b, g, r) ->
  -15 <= b <= 255 /\ -15 <= g <= 255 /\ -15 <= r <= 255.
Proof.
  destruct hex_color; simpl; try discriminate.
  destruct (int_base16 (substring 0 2 (lstrip_hash s))) as [vr|] eqn:Er;
    simpl; [|discriminate].
  destruct (int_base16 (substring 2 2 (lstrip_hash s))) as [vg|] eqn:Eg;
    simpl; [|discriminate].
  destruct (int_base16 (substring 4 2 (lstrip_hash s))) as [vb|] eqn:Eb;
    simpl; [|discriminate].
  intros [= <- <- <-].
  apply int_base16_short_range in Er, Eg, Eb;
    try apply substring_length_le. tauto.
Qed.

Lemma hex_to_bgr_range_witness :
  -15 <= -3 <= 255 /\ -15 <= 255 <= 255 /\ -15 <= 10 <= 255.
Proof.
  apply (hex_to_bgr_range (JStr "#0AFF-3") (-3) 255 10). reflexivity.
Defined.

(** * Geometry of a region *)

Lemma fold_min_le (l : list Z) (x0 a : Z) :
  In a (x0 :: l) -> fold_left Z.min l x0 <= a.
Proof.
  assert (H : forall l x0,
    fold_left Z.min l x0 <= x0
    /\ forall a, In a l -> fold_left Z.min l x0 <= a).
  { clear. induction l as [|b l IH]; intros x0; simpl.
    - split; [lia|intros a []].
    - destruct (IH (Z.min x0 b)) as [Hhead Htail]. split; [lia|].
      intros a [<-|Hin]; [lia|now apply Htail]. }
  intros [<-|Hin]; [apply (proj1 (H l x0))|now apply (proj2 (H l x0))].
Qed.

Lemma fold_max_ge (l : list Z) (x0 a : Z) :
  In a (x0 :: l) -> a <= fold_left Z.max l x0.
Proof.
  assert (H : forall l x0,
    x0 <= fold_left Z.max l x0
    /\ forall a, In a l -> a <= fold_left Z.max l x0).
  { clear. induction l as [|b l IH]; intros x0; simpl.
    - split; [lia|intros a []].
    - destruct (IH (Z.max x0 b)) as [Hhead Htail]. split; [lia|].
      intros a [<-|Hin]; [lia|now apply Htail]. }
  intros [<-|Hin]; [apply (proj1 (H l x0))|now apply (proj2 (H l x0))].
Qed.

Lemma fold_min_In (l : list Z) (x0 : Z) : In (fold_left Z.min l x0) (x0 :: l).
Proof.
  revert x0. induction l as [|b l IH]; intros x0; simpl; [now left|].
  destruct (IH (Z.min x0 b)) as [E|Hin]; [|now right; right].
  rewrite <- E. destruct (Z.min_spec x0 b) as [[_ ->]|[_ ->]]; auto.
Qed.

Lemma fold_max_In (l : list Z) (x0 : Z) : In (fold_left Z.max l x0) (x0 :: l).
Proof.
  revert x0. induction l as [|b l IH]; intros x0; simpl; [now left|].
  destruct (IH (Z.max x0 b)) as [E|Hin]; [|now right; right].
  rewrite <- E. destruct (Z.max_spec x0 b) as [[_ ->]|[_ ->]]; auto.
Qed.

Lemma np_where_In (mask : Mask) (y x : nat) :
  In (y, x) (np_where mask) <->
  (y < mask_h mask)%nat /\ (x < mask_w mask)%nat /\ mask_at mask y x = true.
Proof.
  unfold np_where. rewrite filter_In, in_prod_iff, !in_seq. simpl.
  intuition lia.
Qed.

Lemma NoDup_list_prod {A B : Type} (l : list A) (l' : list B) :
  NoDup l -> NoDup l' -> NoDup (list_prod l l').
Proof.
  intros Hl Hl'. induction Hl as [|a l Hnotin Hl IH]; simpl; [constructor|].
  apply NoDup_app.
  - clear -Hl'. induction Hl' as [|b l' Hb Hl' IH']; simpl; constructor;
      [|exact IH'].
    intros Hin. apply in_map_iff in Hin. destruct Hin as (b' & [= <-] & Hin).
    contradiction.
  - exact IH.
  - intros [a' b'] Hin1 Hin2. apply in_map_iff in Hin1.
    destruct Hin1 as (b'' & [= <- <-] & _).
    apply in_prod_iff in Hin2. destruct Hin2 as [Hin2 _]. contradiction.
Qed.

Lemma np_where_NoDup (mask : Mask) : NoDup (np_where mask).
Proof.
  unfold np_where. apply NoDup_filter.
  apply NoDup_list_prod; apply seq_NoDup.
Qed.

(** The integer fields of the statistics, as lines 66-72 compute them. *)
Lemma region_stats_fields (mask : Mask) (image : option Image)
    (s : RegionStats) :
  Seg.region_stats mask image = Ok (Some s) ->
  exists p0 ps,
    np_where mask = p0 :: ps
    /\ h s = Z.of_nat (mask_h mask)
    /\ w s = Z.of_nat (mask_w mask)
    /\ box_height s =
       fold_left Z.max (map (fun yx => Z.of_nat (fst yx)) ps) (Z.of_nat (fst p0))
       - fold_left Z.min (map (fun yx => Z.of_nat (fst yx)) ps) (Z.of_nat (fst p0))
       + 1
    /\ box_width s =
       fold_left Z.max (map (fun yx => Z.of_nat (snd yx)) ps) (Z.of_nat (snd p0))
       - fold_left Z.min (map (fun yx => Z.of_nat (snd yx)) ps) (Z.of_nat (snd p0))
       + 1
    /\ box_area s = box_height s * box_width s
    /\ mask_area s = Z.of_nat (List.length (np_where mask)).
Proof.
  unfold Seg.region_stats.
  destruct (np_where mask) as [|p0 ps] eqn:E; [discriminate|].
  cbn [map]. cbv zeta. intros H. bind_inv H. destruct a as [[b g] r].
  injection H as <-. exists p0, ps. cbn. repeat split.
Qed.

Lemma in_map_of_nat {A : Type} (f : A -> nat) (l : list A) (z : Z) :
  In z (map (fun a => Z.of_nat (f a)) l) ->
  exists a, In a l /\ z = Z.of_nat (f a).
Proof.
  intros Hin. apply in_map_iff in Hin. destruct Hin as (a & <- & Hin).
  now exists a.
Qed.

(** The box of a non-empty mask: its four sides, each touching a set
    pixel, with every set pixel inside. *)
Lemma region_stats_box (mask : Mask) (image : option Image)
    (s : RegionStats) :
  Seg.region_stats mask image = Ok (Some s) ->
  exists top bottom left right : nat,
    box_height s = Z.of_nat bottom - Z.of_nat top + 1
    /\ box_width s = Z.of_nat right - Z.of_nat left + 1
    /\ (forall y x, In (y, x) (np_where mask) ->
          (top <= y <= bottom)%nat /\ (left <= x <= right)%nat)
    /\ (exists x, In (top, x) (np_where mask))
    /\ (exists x, In (bottom, x) (np_where mask))
    /\ (exists y, In (y, left) (np_where mask))
    /\ (exists y, In (y, right) (np_where mask)).
Proof.
  intros Hs.
  destruct (region_stats_fields _ _ _ Hs)
    as (p0 & ps & E & _ & _ & Hbh & Hbw & _).
  set (ys := map (fun yx : nat * nat => Z.of_nat (fst yx)) ps) in *.
  set (xs := map (fun yx : nat * nat => Z.of_nat (snd yx)) ps) in *.
  assert (Hy : forall z, In z (Z.of_nat (fst p0) :: ys) ->
                 exists p, In p (np_where mask) /\ z = Z.of_nat (fst p)).
  { intros z Hin. rewrite E.
    change (Z.of_nat (fst p0) :: ys)
      with (map (fun yx : nat * nat => Z.of_nat (fst yx)) (p0 :: ps)) in Hin.
    now apply in_map_of_nat in Hin. }
  assert (Hx : forall z, In z (Z.of_nat (snd p0) :: xs) ->
                 exists p, In p (np_where mask) /\ z = Z.of_nat (snd p)).
  { intros z Hin. rewrite E.
    change (Z.of_nat (snd p0) :: xs)
      with (map (fun yx : nat * nat => Z.of_nat (snd yx)) (p0 :: ps)) in Hin.
    now apply in_map_of_nat in Hin. }
  destruct (Hy _ (fold_min_In ys (Z.of_nat (fst p0)))) as ([t tx] & Ht & Et).
  destruct (Hy _ (fold_max_In ys (Z.of_nat (fst p0)))) as ([b bx] & Hb & Eb).
  destruct (Hx _ (fold_min_In xs (Z.of_nat (snd p0)))) as ([ly l] & Hl & El).
  destruct (Hx _ (fold_max_In xs (Z.of_nat (snd p0)))) as ([ry r] & Hr & Er).
  simpl in Et, Eb, El, Er.
  exists t, b, l, r. rewrite Hbh, Hbw, Et, Eb, El, Er.
  split; [reflexivity|]. split; [reflexivity|].
  split.
  - intros y x Hin. rewrite E in Hin.
    assert (Iy : In (Z.of_nat y) (Z.of_nat (fst p0) :: ys)).
    { change (Z.of_nat (fst p0) :: ys)
        with (map (fun yx : nat * nat => Z.of_nat (fst yx)) (p0 :: ps)).
      apply in_map_iff. now exists (y, x). }
    assert (Ix : In (Z.of_nat x) (Z.of_nat (snd p0) :: xs)).
    { change (Z.of_nat (snd p0) :: xs)
        with (map (fun yx : nat * nat => Z.of_nat (snd yx)) (p0 :: ps)).
      apply in_map_iff. now exists (y, x). }
    pose proof (fold_min_le ys _ _ Iy). pose proof (fold_max_ge ys _ _ Iy).
    pose proof (fold_min_le xs _ _ Ix). pose proof (fold_max_ge xs _ _ Ix).
    lia.
  - repeat split; eexists; eassumption.
Qed.

(** X5. The bounding box of a non-empty mask is the tightest one: there
    are rows top and bottom and columns left and right, inside the mask's
    array, such that the box height is bottom - top + 1 and the width
    right - left + 1, every set pixel lies within them, and each of the
    four sides holds a set pixel. *)
Theorem bounding_box_tight (mask : Mask) (image : option Image)
    (s : RegionStats) :
  Seg.region_stats mask image = Ok (Some s) ->
  exists top bottom left right : nat,
    box_height s = Z.of_nat bottom - Z.of_nat top + 1
    /\ box_width s = Z.of_nat right - Z.of_nat left + 1
    /\ (bottom < mask_h mask)%nat /\ (right < mask_w mask)%nat
    /\ (forall y x, (y < mask_h mask)%nat -> (x < mask_w mask)%nat ->
          mask_at mask y x = true ->
          (top <= y <= bottom)%nat /\ (left <= x <= right)%nat)
    /\ (exists x, (x < mask_w mask)%nat /\ mask_at mask top x = true)
    /\ (exists x, (x < mask_w mask)%nat /\ mask_at mask bottom x = true)
    /\ (exists y, (y < mask_h mask)%nat /\ mask_at mask y left = true)
    /\ (exists y, (y < mask_h mask)%nat /\ mask_at mask y right = true).
Proof.
  intros Hs.
  destruct (region_stats_box _ _ _ Hs)
    as (t & b & l & r & Hbh & Hbw & Hin & [tx Ht] & [bx Hb] & [ly Hl] & [ry Hr]).
  apply np_where_In in Ht, Hb, Hl, Hr.
  exists t, b, l, r. repeat split; try tauto.
  - apply (Hin y x). apply np_where_In. tauto.
  - apply (Hin y x). apply np_where_In. tauto.
  - apply (Hin y x). apply np_where_In. tauto.
  - apply (Hin y x). apply np_where_In. tauto.
  - exists tx. tauto.
  - exists bx. tauto.
  - exists ly. tauto.
  - exists ry. tauto.
Qed.

Lemma bounding_box_tight_witness :
  exists s top bottom left right,
    Seg.region_stats (block_mask 10 10 4 5 2 7) None = Ok (Some s)
    /\ box_height s = Z.of_nat bottom - Z.of_nat top + 1
    /\ box_width s = Z.of_nat right - Z.of_nat left + 1.
Proof.
  eexists.
  destruct (bounding_box_tight (block_mask 10 10 4 5 2 7) None _
              ltac:(vm_compute; reflexivity))
    as (t & b & l & r & Hbh & Hbw & _).
  exists t, b, l, r. split; [reflexivity|]. split; assumption.
Defined.

(** X6. For a non-empty mask the sizes are consistent: the box is at
    least one pixel high and wide and fits in the array, its area is the
    product of its sides, and the number of set pixels is at least 1 and
    at most the area of the box, which is at most that of the array. *)
Theorem region_stats_sizes (mask : Mask) (image : option Image)
    (s : RegionStats) :
  Seg.region_stats mask image = Ok (Some s) ->
  h s = Z.of_nat (mask_h mask) /\ w s = Z.of_nat (mask_w mask)
  /\ 1 <= box_height s <= h s
  /\ 1 <= box_width s <= w s
  /\ box_area s = box_height s * box_width s
  /\ 1 <= mask_area s <= box_area s
  /\ box_area s <= h s * w s.
Proof.
  intros Hs.
  destruct (region_stats_fields _ _ _ Hs)
    as (p0 & ps & E & Hh & Hw & _ & _ & Harea & Hcount).
  destruct (region_stats_box _ _ _ Hs)
    as (t & b & l & r & Hbh & Hbw & Hin & [tx Ht] & [bx Hb] & [ly Hl] & [ry Hr]).
  pose proof (proj1 (Hin _ _ Ht)) as Htb.
  pose proof (proj2 (Hin _ _ Hl)) as Hlr.
  apply np_where_In in Hb, Hr.
  assert (Hlen : (List.length (np_where mask) <= (b - t + 1) * (r - l + 1))%nat).
  { rewrite <- (length_seq (b - t + 1) t), <- (length_seq (r - l + 1) l).
    rewrite <- length_prod.
    apply NoDup_incl_length; [apply np_where_NoDup|].
    intros [y x] Hyx. apply in_prod_iff. rewrite !in_seq.
    specialize (Hin y x Hyx). lia. }
  assert (Hpos : (1 <= List.length (np_where mask))%nat)
    by (rewrite E; simpl; lia).
  rewrite Harea, Hcount, Hh, Hw, Hbh, Hbw.
  repeat split; try lia; nia.
Qed.

Lemma region_stats_sizes_witness :
  exists s,
    Seg.region_stats (block_mask 10 10 4 5 2 7) None = Ok (Some s)
    /\ 1 <= mask_area s <= box_area s
    /\ box_area s <= h s * w s.
Proof.
  eexists. split; [vm_compute; reflexivity|].
  eapply (region_stats_sizes (block_mask 10 10 4 5 2 7) None).
  vm_compute. reflexivity.
Defined.

(** * The image argument of the classifier *)

(** The outcomes of the classifier, by shape of the image and emptiness
    of the mask. *)
Lemma classify_region_cases (mask : Mask) (image : Image) :
  (exists l, Seg.classify_region mask None = Ok l)
  /\ (index_fits image mask = true \/ np_where mask = [] ->
      exists l, Seg.classify_region mask (Some image) = Ok l)
  /\ (index_fits image mask = false -> np_where mask <> [] ->
      Seg.classify_region mask (Some image) = Raise IndexError).
Proof.
  unfold Seg.classify_region, Seg.region_stats, getitem_mask.
  destruct (np_where mask) as [|p0 ps] eqn:E; cbn [map]; cbv zeta.
  - split; [now exists main_walls|]. split; [now exists main_walls|].
    intros _ Hne. now contradiction Hne.
  - split; [cbn; eexists; reflexivity|]. split.
    + intros [Hshape|Hnil]; [|discriminate]. rewrite Hshape.
      cbn [bind map List.length].
      destruct (0 <? Z.of_nat (S (List.length (map (fun yx : nat * nat =>
                  img_at image (fst yx) (snd yx)) ps)))).
      * destruct (np_mean _) as [[b g] r]. cbn. eexists. reflexivity.
      * cbn. eexists. reflexivity.
    + intros Hshape _. rewrite Hshape. reflexivity.
Qed.

(** X7. The classifier fails in one case only: a non-empty mask with an
    image of another shape, which raises IndexError.  Without an image,
    with an image of the mask's shape, or on an empty mask it returns a
    label. *)
Theorem classify_region_raises (mask : Mask) (image : Image) :
  (exists l, Seg.classify_region mask None = Ok l)
  /\ (index_fits image mask = true \/ np_where mask = [] ->
      exists l, Seg.classify_region mask (Some image) = Ok l)
  /\ (index_fits image mask = false -> np_where mask <> [] ->
      Seg.classify_region mask (Some image) = Raise IndexError).
Proof.
  destruct (classify_region_cases mask image) as (Hnone & Hok & Hraise).
  split; [exact Hnone|]. split.
  - intros Hfits. now apply Hok.
  - intros Hshape Hne. now apply Hraise.
Qed.

Lemma classify_region_raises_witness :
  (exists l, Seg.classify_region (block_mask 10 10 8 9 4 5)
               (Some (plain_image 10 10 (0, 0, 0))) = Ok l)
  /\ Seg.classify_region (block_mask 10 10 8 9 4 5)
       (Some (plain_image 3 5 (0, 0, 0))) = Raise IndexError.
Proof.
  split.
  - apply (classify_region_raises (block_mask 10 10 8 9 4 5)
             (plain_image 10 10 (0, 0, 0))).
    left. reflexivity.
  - apply (classify_region_raises (block_mask 10 10 8 9 4 5)
             (plain_image 3 5 (0, 0, 0))).
    + reflexivity.
    + vm_compute. discriminate.
Defined.

(** The geometry of the statistics does not depend on the image. *)
Lemma region_stats_with_image (mask : Mask) (image : Image)
    (s : RegionStats) :
  index_fits image mask = true ->
  Seg.region_stats mask None = Ok (Some s) ->
  exists s', Seg.region_stats mask (Some image) = Ok (Some s')
             /\ same_geometry s s'.
Proof.
  intros Hshape. unfold Seg.region_stats, getitem_mask. rewrite Hshape.
  destruct (np_where mask) as [|p0 ps]; [discriminate|].
  cbn [map]. cbv zeta. cbn [bind]. intros [= <-].
  match goal with
  | |- context [if ?c then _ else _] => destruct c
  end.
  - destruct (np_mean _) as [[b g] r]. cbn [bind]. eexists.
    split; [reflexivity|]. unfold same_geometry. cbn. repeat split.
  - cbn [bind]. eexists.
    split; [reflexivity|]. unfold same_geometry. cbn. repeat split.
Qed.

(** The decision sequence reads the color in the doors rule only. *)
Lemma classify_stats_color (s s' : RegionStats) :
  same_geometry s s' ->
  Seg.doors_dark s = true ->
  (Seg.classify_stats s <> doors ->
   Seg.classify_stats s' = Seg.classify_stats s)
  /\ (Seg.classify_stats s = doors ->
      Seg.classify_stats s' = doors
      \/ Seg.classify_stats s' = windows
      \/ Seg.classify_stats s' = main_walls).
Proof.
  intros [Hh [Hw [Hbh [Hbw [Hba [Hma [Har [Hasp [Hcy Hcx]]]]]]]]] Hdark.
  unfold Seg.classify_stats, Seg.roof_rule, Seg.balcony_rule,
    Seg.pillars_rule, Seg.side_walls_rule, Seg.upper_walls_rule,
    Seg.main_walls_rule, Seg.doors_shape, Seg.windows_shape.
  rewrite Hh, Hw, Hbh, Hba, Har, Hasp, Hcy, Hcx, Hdark.
  repeat match goal with
  | |- context [if ?c then _ else _] =>
      lazymatch c with
      | context [if _ then _ else _] => fail
      | _ => destruct c
      end
  end; split; intros; try congruence; auto.
Qed.

(** X8. The image can change the label of a mask in one way only: a
    mask that is [doors] without an image may become [windows] or
    [main_walls] when its pixels are not dark.  Every other label is the
    same with and without an image of the mask's shape. *)
Theorem image_only_decides_doors (mask : Mask) (image : Image)
    (l : RegionLabel) :
  index_fits image mask = true ->
  Seg.classify_region mask None = Ok l ->
  (l <> doors -> Seg.classify_region mask (Some image) = Ok l)
  /\ (l = doors ->
      Seg.classify_region mask (Some image) = Ok doors
      \/ Seg.classify_region mask (Some image) = Ok windows
      \/ Seg.classify_region mask (Some image) = Ok main_walls).
Proof.
  intros Hshape Hl.
  destruct (Seg.region_stats mask None) as [[s|]|e] eqn:Hs.
  - destruct (region_stats_with_image mask image s Hshape Hs)
      as (s' & Hs' & Hgeo).
    destruct (region_stats_no_image _ _ Hs) as (Hb & Hg & Hr).
    assert (Hdark : Seg.doors_dark s = true).
    { unfold Seg.doors_dark. rewrite Hb, Hg, Hr. reflexivity. }
    rewrite (classify_region_stats _ _ _ Hs) in Hl. injection Hl as <-.
    rewrite (classify_region_stats _ _ _ Hs').
    destruct (classify_stats_color s s' Hgeo Hdark) as [Hsame Hdoors].
    split.
    + intros Hne. now rewrite Hsame.
    + intros Hd. destruct (Hdoors Hd) as [-> | [-> | ->]]; auto.
  - assert (Hnil : np_where mask = []).
    { unfold Seg.region_stats in Hs.
      destruct (np_where mask); [reflexivity|discriminate]. }
    unfold Seg.classify_region in *. rewrite Hs in Hl.
    injection Hl as <-. unfold Seg.region_stats. rewrite Hnil. cbn.
    split; [reflexivity|discriminate].
  - unfold Seg.classify_region in Hl. rewrite Hs in Hl. discriminate.
Qed.

Lemma image_only_decides_doors_witness :
  Seg.classify_region (block_mask 10 10 4 5 4 5)
    (Some (plain_image 10 10 (200, 200, 200))) = Ok windows
  /\ (Seg.classify_region (block_mask 10 10 8 9 4 5)
        (Some (plain_image 10 10 (200, 200, 200))) = Ok doors
      \/ Seg.classify_region (block_mask 10 10 8 9 4 5)
           (Some (plain_image 10 10 (200, 200, 200))) = Ok windows
      \/ Seg.classify_region (block_mask 10 10 8 9 4 5)
           (Some (plain_image 10 10 (200, 200, 200))) = Ok main_walls).
Proof.
  split.
  - apply (image_only_decides_doors (block_mask 10 10 4 5 4 5)
             (plain_image 10 10 (200, 200, 200)) windows);
      [reflexivity|vm_compute; reflexivity|discriminate].
  - apply (image_only_decides_doors (block_mask 10 10 8 9 4 5)
             (plain_image 10 10 (200, 200, 200)) doors);
      [reflexivity|vm_compute; reflexivity|reflexivity].
Defined.

(** * Outcomes of style resolution and of the styling step *)

(** What the resolver returns or raises, by cases on its result. *)
Lemma recommend_cases (region style : string)
    (style_library : StyleLibrary) (rng : RandomSource) :
  match Seg.recommend_style_for_region region style style_library rng with
  | Ok (fields, rng') =>
      rng' = advance rng
      /\ exists k rec, In rec (lookup style_library k style)
                       /\ option_fields rec = Some fields
  | Raise e =>
      (e = IndexError /\ forall k, lookup style_library k style = [])
      \/ (e = KeyError
          /\ exists k rec, In rec (lookup style_library k style)
                           /\ option_fields rec = None)
  end.
Proof.
  destruct (candidates_total region style style_library)
    as (l & Hc & Hcases).
  rewrite (recommend_from_candidates _ _ _ rng l Hc).
  destruct Hcases as [[-> Hall]|[Hne [k Hk]]].
  - simpl. left. split; [reflexivity|exact Hall].
  - destruct (random_choice_In l rng Hne) as (rec & Hin & Hchoice).
    rewrite Hchoice. cbn [bind].
    destruct (option_fields rec) as [fields|] eqn:Ef.
    + split; [reflexivity|]. exists k, rec. now rewrite Hk.
    + right. split; [reflexivity|]. exists k, rec. now rewrite Hk.
Qed.

(** X9. For a catalog document whose containers follow the schema,
    style resolution has three outcomes.  It returns the six fields of a
    record listed under the requested style in some region of the
    catalog, having consumed one draw of the random source; or it raises
    IndexError, exactly when no region lists anything for the style; or
    it raises KeyError, because the record it chose lacks a field. *)
Theorem recommend_outcomes (document : json) (region style : string)
    (style_library : StyleLibrary) (rng : RandomSource) :
  library_of_json document = Some style_library ->
  match Seg.recommend_style_for_region region style style_library rng with
  | Ok (fields, rng') =>
      rng' = advance rng
      /\ exists k rec, In rec (lookup style_library k style)
                       /\ option_fields rec = Some fields
  | Raise e =>
      (e = IndexError /\ forall k, lookup style_library k style = [])
      \/ (e = KeyError
          /\ exists k rec, In rec (lookup style_library k style)
                           /\ option_fields rec = None)
  end.
Proof.
  intros _.
  pose proof (recommend_cases region style style_library rng) as Hcases.
  destruct (Seg.recommend_style_for_region region style style_library rng)
    as [[fields rng']|e].
  - destruct Hcases as [Hrng Hrec]. split; assumption.
  - destruct Hcases as [Hindex|Hkey]; [now left|now right].
Qed.

Lemma recommend_outcomes_witness :
  match Seg.recommend_style_for_region "roof" "modern" malformed_catalog
          zero_source with
  | Ok (fields, rng') =>
      rng' = advance zero_source
      /\ exists k rec, In rec (lookup malformed_catalog k "modern")
                       /\ option_fields rec = Some fields
  | Raise e =>
      (e = IndexError /\ forall k, lookup malformed_catalog k "modern" = [])
      \/ (e = KeyError
          /\ exists k rec, In rec (lookup malformed_catalog k "modern")
                           /\ option_fields rec = None)
  end.
Proof.
  apply (recommend_outcomes (json_of_library malformed_catalog) "roof"
           "modern" malformed_catalog zero_source).
  reflexivity.
Defined.

(** A document with a string where a record is expected is outside the
    catalogs the embedding covers. *)
Example string_for_record_outside :
  library_of_json string_for_record = None
  /\ library_of_json (json_of_library small_catalog) = Some small_catalog.
Proof. split; reflexivity. Qed.

Lemma recommend_advances (region style : string)
    (style_library : StyleLibrary) (rng rng' : RandomSource)
    (fields : Seg.Recommendation) :
  Seg.recommend_style_for_region region style style_library rng =
    Ok (fields, rng') ->
  rng' = advance rng.
Proof.
  intros H. pose proof (recommend_cases region style style_library rng) as Ho.
  rewrite H in Ho. tauto.
Qed.

(** X10. A successful styling step consumes one draw of the random
    source for each mask, empty masks included, and nothing else of it. *)
Theorem styling_consumes_one_draw_per_mask (original_img : Image)
    (masks : list MaskDict) (style : string) (style_library : StyleLibrary)
    (rng rng' : RandomSource) (out : Image) :
  Seg.apply_style_recommendations original_img masks style style_library rng =
    Ok (out, rng') ->
  draws rng' = draws rng
  /\ position rng' = (position rng + List.length masks)%nat.
Proof.
  unfold Seg.apply_style_recommendations.
  generalize (copy original_img). intros output_img. revert output_img rng.
  induction masks as [|mask_dict masks IH]; intros output_img rng H.
  - simpl in H. injection H as _ <-. simpl. split; [reflexivity|lia].
  - simpl in H.
    bind_inv H. rename a into region_type, Ha into Hclass.
    bind_inv H. destruct a as [fields rng1]. rename Ha into Hrec.
    apply recommend_advances in Hrec. subst rng1.
    destruct fields as [[[[[color texture] material] finish] rating] keywords].
    bind_inv H. rename a into color_bgr, Ha into Hhex.
    bind_inv H. rename a into out1, Ha into Hset.
    destruct (IH _ _ H) as [Hd Hp]. rewrite Hd, Hp. simpl.
    split; [reflexivity|lia].
Qed.

Lemma styling_consumes_one_draw_per_mask_witness :
  exists out rng',
    Seg.apply_style_recommendations (plain_image 4 4 (1, 2, 3))
      [upper_mask; lower_mask] "modern" two_color_catalog counting_source =
      Ok (out, rng')
    /\ position rng' = 2%nat.
Proof.
  eexists. eexists. split; [vm_compute; reflexivity|].
  exact (proj2 (styling_consumes_one_draw_per_mask
                  (plain_image 4 4 (1, 2, 3)) [upper_mask; lower_mask]
                  "modern" two_color_catalog counting_source _ _ eq_refl)).
Defined.

Lemma style_masks_uint8 (original_img : Image) (style : string)
    (style_library : StyleLibrary) (masks : list MaskDict) :
  forall (output_img : Image) (rng : RandomSource) (out : Image)
         (rng' : RandomSource),
    uint8_image output_img ->
    Seg.style_masks original_img output_img masks style style_library rng =
      Ok (out, rng') ->
    uint8_image out.
Proof.
  induction masks as [|mask_dict masks IH]; intros output_img rng out rng' Hu8 H.
  - simpl in H. now injection H as <- _.
  - simpl in H.
    bind_inv H. rename a into region_type, Ha into Hclass.
    bind_inv H. destruct a as [fields rng1]. rename Ha into Hrec.
    destruct fields as [[[[[color texture] material] finish] rating] keywords].
    bind_inv H. rename a into color_bgr, Ha into Hhex.
    bind_inv H. rename a into out1, Ha into Hset.
    destruct (setitem_mask_Ok _ _ _ _ Hset) as (_ & Hc & Hh1 & Hw1 & Hpix).
    apply (IH out1 rng1 out rng'); [|exact H].
    intros y x Hy Hx. rewrite Hpix.
    destruct (mask_set (segmentation mask_dict) y x); [exact Hc|].
    apply Hu8; congruence.
Qed.

(** X11. The styling step keeps the image an 8-bit image: if every
    channel of the original is in 0..255, so is every channel of the
    styled image. *)
Theorem styling_keeps_uint8 (original_img : Image)
    (masks : list MaskDict) (style : string) (style_library : StyleLibrary)
    (rng rng' : RandomSource) (out : Image) :
  uint8_image original_img ->
  Seg.apply_style_recommendations original_img masks style style_library rng =
    Ok (out, rng') ->
  uint8_image out.
Proof.
  intros Hu8 H. unfold Seg.apply_style_recommendations in H.
  eapply (style_masks_uint8 original_img style style_library masks
            (copy original_img)); [|exact H].
  exact Hu8.
Qed.

Lemma styling_keeps_uint8_witness :
  exists out rng',
    Seg.apply_style_recommendations (plain_image 4 4 (1, 2, 3))
      [upper_mask; lower_mask] "modern" two_color_catalog counting_source =
      Ok (out, rng')
    /\ uint8_image out.
Proof.
  eexists. eexists. split; [vm_compute; reflexivity|].
  eapply (styling_keeps_uint8 (plain_image 4 4 (1, 2, 3))
            [upper_mask; lower_mask] "modern" two_color_catalog
            counting_source).
  - intros y x _ _. reflexivity.
  - vm_compute. reflexivity.
Defined.

Lemma style_masks_append (original_img : Image) (style : string)
    (style_library : StyleLibrary) (masks1 masks2 : list MaskDict) :
  forall (output_img : Image) (rng : RandomSource),
    Seg.style_masks original_img output_img (masks1 ++ masks2) style
      style_library rng =
    ('(output_img1, rng1) <-
       Seg.style_masks original_img output_img masks1 style style_library rng ;;
     Seg.style_masks original_img output_img1 masks2 style style_library rng1).
Proof.
  induction masks1 as [|mask_dict masks1 IH]; intros output_img rng;
    [reflexivity|].
  cbn [app Seg.style_masks].
  destruct (Seg.classify_region (segmentation mask_dict) (Some original_img))
    as [region_type|e]; [|reflexivity].
  cbn [bind].
  destruct (Seg.recommend_style_for_region (label_str region_type) style
              style_library rng) as [[fields rng1]|e]; [|reflexivity].
  destruct fields as [[[[[color texture] material] finish] rating] keywords].
  cbn [bind].
  destruct (Seg.hex_to_bgr color) as [color_bgr|e]; [|reflexivity].
  cbn [bind].
  destruct (setitem_mask output_img (segmentation mask_dict) color_bgr)
    as [out1|e]; [|reflexivity].
  cbn [bind]. apply IH.
Qed.

(** X12. Styling a list of masks in two parts gives the result of
    styling the whole list: the second part continues on the image and
    with the random source the first part left, and every mask is
    classified on the original image, not on the partly painted one. *)
Theorem styling_in_two_parts (original_img : Image)
    (masks1 masks2 : list MaskDict) (style : string)
    (style_library : StyleLibrary) (rng : RandomSource) :
  Seg.apply_style_recommendations original_img (masks1 ++ masks2) style
    style_library rng =
  ('(output_img1, rng1) <-
     Seg.apply_style_recommendations original_img masks1 style
       style_library rng ;;
   Seg.style_masks original_img output_img1 masks2 style style_library rng1).
Proof.
  unfold Seg.apply_style_recommendations. apply style_masks_append.
Qed.

(** X13. A style that no region of the catalog lists is noticed only
    when there is a mask to style: with no mask the step returns a copy
    of the image and leaves the random source alone, and with at least
    one mask it raises IndexError. *)
Theorem styling_unknown_style (original_img : Image)
    (masks : list MaskDict) (style : string) (style_library : StyleLibrary)
    (rng : RandomSource) :
  (forall k, lookup style_library k style = []) ->
  Seg.apply_style_recommendations original_img masks style style_library rng =
  match masks with
  | [] => Ok (copy original_img, rng)
  | _ :: _ => Raise IndexError
  end.
Proof.
  intros Hnone. destruct masks as [|mask_dict masks]; [reflexivity|].
  unfold Seg.apply_style_recommendations. cbn [Seg.style_masks].
  destruct (classify_region_cases (segmentation mask_dict) original_img)
    as (_ & Hok & Hraise).
  destruct (index_fits original_img (segmentation mask_dict)) eqn:Hshape.
  - destruct (Hok (or_introl eq_refl)) as [l Hl]. rewrite Hl. cbn [bind].
    pose proof (recommend_cases (label_str l) style style_library rng) as Hc.
    destruct (Seg.recommend_style_for_region (label_str l) style
                style_library rng) as [[fields rng1]|e].
    + destruct Hc as (_ & k & rec & Hin & _). now rewrite Hnone in Hin.
    + destruct Hc as [[-> _]|(_ & k & rec & Hin & _)]; [reflexivity|].
      now rewrite Hnone in Hin.
  - destruct (np_where (segmentation mask_dict)) as [|p ps] eqn:Ew.
    + destruct (Hok (or_intror eq_refl)) as [l Hl]. rewrite Hl. cbn [bind].
      pose proof (recommend_cases (label_str l) style style_library rng) as Hc.
      destruct (Seg.recommend_style_for_region (label_str l) style
                  style_library rng) as [[fields rng1]|e].
      * destruct Hc as (_ & k & rec & Hin & _). now rewrite Hnone in Hin.
      * destruct Hc as [[-> _]|(_ & k & rec & Hin & _)]; [reflexivity|].
        now rewrite Hnone in Hin.
    + rewrite (Hraise eq_refl) by discriminate. reflexivity.
Qed.

Lemma styling_unknown_style_witness :
  Seg.apply_style_recommendations (plain_image 4 4 (1, 2, 3))
    [upper_mask; lower_mask] "ghost" two_color_catalog counting_source =
  Raise IndexError.
Proof.
  apply (styling_unknown_style (plain_image 4 4 (1, 2, 3))
           [upper_mask; lower_mask] "ghost" two_color_catalog counting_source).
  intros k. unfold lookup, two_color_catalog, dict_get.
  destruct (String.eqb "side_walls" k); reflexivity.
Defined.

(** X14. One mask that does not fit the image as a boolean index (one of
    its axes has a length other than 0 and other than the image's) makes
    the whole styling step fail, wherever it is in the list and even if
    it has no set pixel; no partly styled image is returned. *)
Theorem styling_rejects_mask_of_other_shape (original_img : Image)
    (masks : list MaskDict) (style : string) (style_library : StyleLibrary)
    (rng : RandomSource) (mask_dict : MaskDict) :
  In mask_dict masks ->
  index_fits original_img (segmentation mask_dict) = false ->
  exists e,
    Seg.apply_style_recommendations original_img masks style style_library
      rng = Raise e.
Proof.
  intros Hin Hshape.
  destruct (Seg.apply_style_recommendations original_img masks style
              style_library rng) as [[out rng']|e] eqn:H; [|now exists e].
  unfold Seg.apply_style_recommendations in H.
  apply style_masks_Ok in H.
  destruct H as (colors & _ & _ & Hshapes & _).
  rewrite Forall_forall in Hshapes. specialize (Hshapes _ Hin).
  rewrite (index_fits_dims original_img (copy original_img)) in Hshapes
    by reflexivity.
  congruence.
Qed.

Lemma styling_rejects_mask_of_other_shape_witness :
  exists e,
    Seg.apply_style_recommendations (plain_image 4 4 (1, 2, 3))
      [upper_mask; {| segmentation := empty_mask 5 5 |}] "modern"
      two_color_catalog counting_source = Raise e.
Proof.
  apply (styling_rejects_mask_of_other_shape (plain_image 4 4 (1, 2, 3))
           [upper_mask; {| segmentation := empty_mask 5 5 |}] "modern"
           two_color_catalog counting_source
           {| segmentation := empty_mask 5 5 |}).
  - right. left. reflexivity.
  - reflexivity.
Defined.

(** * The driver *)

Lemma to_bgr_shape (img_np : Decoded) (img_bgr : Image) :
  SegMain.to_bgr img_np = Ok img_bgr ->
  img_h img_bgr = fst (shape2 img_np) /\ img_w img_bgr = snd (shape2 img_np).
Proof.
  destruct img_np as [rows cols at2|rows cols channels at3]; simpl;
    [discriminate|].
  unfold cvt_gray_to_bgr.
  destruct (Nat.eqb channels 4); [intros [= <-]; now split|].
  destruct (Nat.eqb channels 3); [intros [= <-]; now split|].
  destruct (Nat.eqb channels 1); [intros [= <-]; now split|discriminate].
Qed.

Lemma apply_style_recommendations_shape (original_img : Image)
    (masks : list MaskDict) (style : string) (style_library : StyleLibrary)
    (rng rng' : RandomSource) (out : Image) :
  Seg.apply_style_recommendations original_img masks style style_library rng =
    Ok (out, rng') ->
  img_h out = img_h original_img /\ img_w out = img_w original_img.
Proof.
  unfold Seg.apply_style_recommendations. intros H.
  apply style_masks_Ok in H.
  destruct H as (colors & _ & _ & _ & _ & Hh & Hw & _). now split.
Qed.

(** The driver after a successful styling step. *)
Lemma main_after_styling (generate : Image -> list MaskDict)
    (resize : Image -> nat -> nat -> Image) (img_np : Decoded)
    (style : string) (document : StyleLibrary) (blend_alpha : float)
    (rng rng' : RandomSource) (img_bgr styled_image : Image) :
  SegMain.to_bgr img_np = Ok img_bgr ->
  Seg.apply_style_recommendations img_bgr (generate img_bgr) style document
    rng = Ok (styled_image, rng') ->
  exists blended_bgr,
    Seg.blend img_bgr (cvt_swap (cvt_swap styled_image)) blend_alpha =
      Ok blended_bgr
    /\ SegMain.main generate resize img_np style document blend_alpha rng =
       Ok (cvt_swap styled_image, cvt_swap blended_bgr, rng')
    /\ (img_h blended_bgr, img_w blended_bgr) = shape2 img_np
    /\ (img_h styled_image, img_w styled_image) = shape2 img_np.
Proof.
  intros Hbgr Hstyled.
  destruct (to_bgr_shape _ _ Hbgr) as [Hh Hw].
  destruct (apply_style_recommendations_shape _ _ _ _ _ _ _ Hstyled)
    as [Hsh Hsw].
  assert (Hblend : exists blended_bgr,
    Seg.blend img_bgr (cvt_swap (cvt_swap styled_image)) blend_alpha =
      Ok blended_bgr
    /\ img_h blended_bgr = img_h img_bgr
    /\ img_w blended_bgr = img_w img_bgr).
  { unfold Seg.blend, Seg.add_weighted. cbn [cvt_swap img_h img_w].
    rewrite Hsh, Hsw, !Nat.eqb_refl. cbn [andb].
    eexists. split; [reflexivity|]. split; reflexivity. }
  destruct Hblend as (blended_bgr & Hblend & Hbh & Hbw).
  exists blended_bgr. split; [exact Hblend|]. split.
  - unfold SegMain.main, Seg.load_style_library. cbn [bind].
    rewrite Hbgr. cbn [bind]. rewrite Hstyled. cbn [bind].
    cbn [cvt_swap img_h img_w]. rewrite Hsh, Hsw, <- Hh, <- Hw.
    rewrite !Nat.eqb_refl. cbn [andb negb]. rewrite Hblend. reflexivity.
  - split.
    + rewrite Hbh, Hbw, Hh, Hw. now destruct (shape2 img_np).
    + rewrite Hsh, Hsw, Hh, Hw. now destruct (shape2 img_np).
Qed.

(** X15. Once the image is in BGR order and the styling step has
    succeeded, the driver completes: the styled image always has the
    size of the input, so the resize of lines 262-264 is never used and
    blending cannot fail.  It saves the styled image in RGB order and the
    blend of the input with the styled image, in RGB order. *)
Theorem main_completes_after_styling (generate : Image -> list MaskDict)
    (resize : Image -> nat -> nat -> Image) (img_np : Decoded)
    (style : string) (document : StyleLibrary) (blend_alpha : float)
    (rng rng' : RandomSource) (img_bgr styled_image : Image) :
  SegMain.to_bgr img_np = Ok img_bgr ->
  Seg.apply_style_recommendations img_bgr (generate img_bgr) style document
    rng = Ok (styled_image, rng') ->
  exists blended_bgr,
    Seg.blend img_bgr (cvt_swap (cvt_swap styled_image)) blend_alpha =
      Ok blended_bgr
    /\ SegMain.main generate resize img_np style document blend_alpha rng =
       Ok (cvt_swap styled_image, cvt_swap blended_bgr, rng')
    /\ (img_h blended_bgr, img_w blended_bgr) = shape2 img_np
    /\ (img_h styled_image, img_w styled_image) = shape2 img_np.
Proof.
  intros Hbgr Hstyled.
  destruct (main_after_styling generate resize img_np style document
              blend_alpha rng rng' img_bgr styled_image Hbgr Hstyled)
    as (blended_bgr & Hblend & Hmain & Hshape & Hshape').
  exists blended_bgr. repeat split; assumption.
Qed.

Lemma main_completes_after_styling_witness :
  exists styled_image rng' blended_bgr,
    SegMain.main two_masks no_resize sample_rgb "modern" two_color_catalog
      0.5%float counting_source =
    Ok (cvt_swap styled_image, cvt_swap blended_bgr, rng').
Proof.
  eexists. eexists.
  destruct (main_completes_after_styling two_masks no_resize sample_rgb
              "modern" two_color_catalog 0.5%float counting_source _ _ _
              eq_refl ltac:(vm_compute; reflexivity))
    as (blended_bgr & _ & Hmain & _).
  exists blended_bgr. exact Hmain.
Defined.

(** X16. The driver accepts an input array only if it is
    three-dimensional with 1, 3 or 4 channels.  The two-dimensional array
    of a single-band (grayscale) image fails with IndexError at the first
    test of the channel count, before any mask is generated, and an array
    with another number of channels is refused by the color conversion. *)
Theorem main_input_arrays (generate : Image -> list MaskDict)
    (resize : Image -> nat -> nat -> Image) (img_np : Decoded)
    (style : string) (document : StyleLibrary) (blend_alpha : float)
    (rng : RandomSource) :
  match img_np with
  | Array2D _ _ _ =>
      SegMain.main generate resize img_np style document blend_alpha rng =
      Raise IndexError
  | Array3D _ _ channels _ =>
      if (Nat.eqb channels 1 || Nat.eqb channels 3 || Nat.eqb channels 4)%bool
      then exists img_bgr,
             SegMain.to_bgr img_np = Ok img_bgr
             /\ SegMain.main generate resize img_np style document
                  blend_alpha rng =
                ('(styled_image, rng') <-
                   Seg.apply_style_recommendations img_bgr (generate img_bgr)
                     style document rng ;;
                 blended_bgr <-
                   Seg.blend img_bgr (cvt_swap (cvt_swap styled_image))
                     blend_alpha ;;
                 Ok (cvt_swap styled_image, cvt_swap blended_bgr, rng'))
      else SegMain.main generate resize img_np style document blend_alpha rng =
           Raise CvError
  end.
Proof.
  destruct img_np as [rows cols at2|rows cols channels at3]; [reflexivity|].
  destruct (Nat.eqb channels 1 || Nat.eqb channels 3 || Nat.eqb channels 4)%bool
    eqn:Ech.
  - assert (Hbgr : exists img_bgr,
      SegMain.to_bgr (Array3D rows cols channels at3) = Ok img_bgr).
    { unfold SegMain.to_bgr, cvt_gray_to_bgr.
      destruct (Nat.eqb channels 4); [eexists; reflexivity|].
      destruct (Nat.eqb channels 3); [eexists; reflexivity|].
      destruct (Nat.eqb channels 1); [eexists; reflexivity|discriminate]. }
    destruct Hbgr as [img_bgr Hbgr]. exists img_bgr. split; [exact Hbgr|].
    destruct (Seg.apply_style_recommendations img_bgr (generate img_bgr)
                style document rng) as [[styled_image rng']|e] eqn:Hstyled.
    + destruct (main_after_styling generate resize _ style document
                  blend_alpha rng rng' img_bgr styled_image Hbgr Hstyled)
        as (blended_bgr & Hblend & Hmain & _).
      rewrite Hmain. cbn [bind]. rewrite Hblend. reflexivity.
    + unfold SegMain.main, Seg.load_style_library. cbn [bind].
      rewrite Hbgr. cbn [bind]. rewrite Hstyled. reflexivity.
  - unfold SegMain.main, Seg.load_style_library, SegMain.to_bgr,
      cvt_gray_to_bgr. cbn [bind].
    destruct (Nat.eqb channels 4); [now rewrite !orb_true_r in Ech|].
    destruct (Nat.eqb channels 3);
      [now rewrite ?orb_true_r, ?orb_true_l in Ech|].
    destruct (Nat.eqb channels 1); [discriminate Ech|reflexivity].
Qed.

Lemma blend_Ok (original styled blended : Image) (alpha : float) :
  Seg.blend original styled alpha = Ok blended ->
  forall y x,
    img_at blended y x =
    (Seg.add_weighted_channel (chan_b (img_at original y x))
       (1 - alpha)%float (chan_b (img_at styled y x)) alpha 0%float,
     Seg.add_weighted_channel (chan_g (img_at original y x))
       (1 - alpha)%float (chan_g (img_at styled y x)) alpha 0%float,
     Seg.add_weighted_channel (chan_r (img_at original y x))
       (1 - alpha)%float (chan_r (img_at styled y x)) alpha 0%float).
Proof.
  unfold Seg.blend, Seg.add_weighted.
  destruct (Nat.eqb (img_h original) (img_h styled)
            && Nat.eqb (img_w original) (img_w styled))%bool; [|discriminate].
  intros [= <-]. reflexivity.
Qed.

(** A run of the driver on an RGB array that returns. *)
Lemma main_rgb_Ok (generate : Image -> list MaskDict)
    (resize : Image -> nat -> nat -> Image) (rows cols : nat)
    (at3 : nat -> nat -> list Z) (style : string) (document : StyleLibrary)
    (blend_alpha : float) (rng rng' : RandomSource)
    (styled_rgb blended_rgb : Image) :
  SegMain.main generate resize (Array3D rows cols 3 at3) style document
    blend_alpha rng = Ok (styled_rgb, blended_rgb, rng') ->
  exists styled_image blended_bgr,
    Seg.apply_style_recommendations (cvt_to_bgr rows cols at3)
      (generate (cvt_to_bgr rows cols at3)) style document rng =
      Ok (styled_image, rng')
    /\ Seg.blend (cvt_to_bgr rows cols at3) (cvt_swap (cvt_swap styled_image))
         blend_alpha = Ok blended_bgr
    /\ styled_rgb = cvt_swap styled_image
    /\ blended_rgb = cvt_swap blended_bgr.
Proof.
  intros H.
  destruct (Seg.apply_style_recommendations (cvt_to_bgr rows cols at3)
              (generate (cvt_to_bgr rows cols at3)) style document rng)
    as [[styled_image rng1]|e] eqn:Hstyled.
  - destruct (main_after_styling generate resize (Array3D rows cols 3 at3)
                style document blend_alpha rng rng1 (cvt_to_bgr rows cols at3)
                styled_image eq_refl Hstyled)
      as (blended_bgr & Hblend & Hmain & _).
    rewrite Hmain in H. injection H as <- <- <-.
    exists styled_image, blended_bgr. repeat split; assumption.
  - unfold SegMain.main, Seg.load_style_library in H. cbn [bind] in H.
    change (SegMain.to_bgr (Array3D rows cols 3 at3))
      with (Ok (cvt_to_bgr rows cols at3)) in H.
    cbn [bind] in H. rewrite Hstyled in H. discriminate H.
Qed.

(** X17. On an 8-bit RGB input the driver's blended output is, pixel by
    pixel, the input image when the blend factor is 0 and the styled
    image it saved when the factor is 1 (with the blending function as
    modelled from the specification). *)
Theorem main_blend_endpoints (generate : Image -> list MaskDict)
    (resize : Image -> nat -> nat -> Image) (rows cols : nat)
    (at3 : nat -> nat -> list Z) (style : string) (document : StyleLibrary)
    (rng rng' : RandomSource) (styled_rgb blended_rgb : Image) :
  rgb_uint8 rows cols at3 ->
  (SegMain.main generate resize (Array3D rows cols 3 at3) style document
     0%float rng = Ok (styled_rgb, blended_rgb, rng') ->
   forall y x, (y < rows)%nat -> (x < cols)%nat ->
     img_at blended_rgb y x =
     (channel (at3 y x) 0, channel (at3 y x) 1, channel (at3 y x) 2))
  /\ (SegMain.main generate resize (Array3D rows cols 3 at3) style document
        1%float rng = Ok (styled_rgb, blended_rgb, rng') ->
      forall y x, (y < rows)%nat -> (x < cols)%nat ->
        img_at blended_rgb y x = img_at styled_rgb y x).
Proof.
  intros Hrgb.
  assert (Hinput : uint8_image (cvt_to_bgr rows cols at3)).
  { intros y x Hy Hx. simpl in Hy, Hx.
    destruct (Hrgb y x Hy Hx) as (r & g & b & E & Hr & Hg & Hb).
    unfold u8_pixel, chan_b, chan_g, chan_r. cbn. rewrite E. cbn.
    now rewrite Hr, Hg, Hb. }
  split; intros H y x Hy Hx;
    destruct (main_rgb_Ok _ _ _ _ _ _ _ _ _ _ _ _ H)
      as (styled_image & blended_bgr & Hstyled & Hblend & -> & ->);
    pose proof (style_masks_uint8 _ _ _ _ _ _ _ _ Hinput Hstyled) as Hout;
    destruct (apply_style_recommendations_shape _ _ _ _ _ _ _ Hstyled)
      as [Hsh Hsw];
    cbn [cvt_to_bgr img_h img_w] in Hsh, Hsw;
    assert (Hs : u8_pixel (img_at styled_image y x) = true)
      by (apply Hout; lia);
    assert (Hi : u8_pixel (img_at (cvt_to_bgr rows cols at3) y x) = true)
      by (apply Hinput; assumption);
    apply u8_pixel_channels in Hs, Hi;
    destruct Hs as (Sb & Sg & Sr); destruct Hi as (Ib & Ig & Ir);
    cbn [cvt_swap img_at]; rewrite (blend_Ok _ _ _ _ Hblend);
    unfold chan_b, chan_g, chan_r in *; cbn [cvt_swap img_at fst snd] in *.
  - rewrite !add_weighted_channel_alpha_0 by assumption. reflexivity.
  - rewrite !add_weighted_channel_alpha_1 by assumption. reflexivity.
Qed.

Lemma main_blend_endpoints_witness :
  exists styled_rgb blended_rgb rng',
    SegMain.main two_masks no_resize sample_rgb "modern" two_color_catalog
      0%float counting_source = Ok (styled_rgb, blended_rgb, rng')
    /\ img_at blended_rgb 1%nat 1%nat = (3, 2, 1).
Proof.
  assert (Hrgb : rgb_uint8 4 4 (fun _ _ => [3; 2; 1]))
    by (intros y x _ _; exists 3, 2, 1; repeat split).
  assert (Hstyled : exists styled_image rng',
    Seg.apply_style_recommendations (cvt_to_bgr 4 4 (fun _ _ => [3; 2; 1]))
      (two_masks (cvt_to_bgr 4 4 (fun _ _ => [3; 2; 1]))) "modern"
      two_color_catalog counting_source = Ok (styled_image, rng'))
    by (eexists; eexists; vm_compute; reflexivity).
  destruct Hstyled as (styled_image & rng' & Hstyled).
  destruct (main_after_styling two_masks no_resize sample_rgb "modern"
              two_color_catalog 0%float counting_source rng' _ styled_image
              eq_refl Hstyled)
    as (blended_bgr & _ & Hmain & _).
  exists (cvt_swap styled_image), (cvt_swap blended_bgr), rng'.
  split; [exact Hmain|].
  apply (proj1 (main_blend_endpoints two_masks no_resize 4 4
                  (fun _ _ => [3; 2; 1]) "modern" two_color_catalog
                  counting_source rng' (cvt_swap styled_image)
                  (cvt_swap blended_bgr) Hrgb) Hmain 1%nat 1%nat); lia.
Defined.

(** A mask with an axis of length 0 selects nothing and is accepted
    whatever the image: it costs a draw and leaves the image as it is. *)
Example styling_accepts_mask_with_empty_axis :
  index_fits (plain_image 4 4 (1, 2, 3)) (empty_mask 0 0) = true
  /\ index_fits (plain_image 4 4 (1, 2, 3)) (empty_mask 0 4) = true
  /\ index_fits (plain_image 4 4 (1, 2, 3)) (empty_mask 0 5) = false
  /\ exists out,
       Seg.apply_style_recommendations (plain_image 4 4 (1, 2, 3))
         [{| segmentation := empty_mask 0 0 |}] "modern" two_color_catalog
         counting_source = Ok (out, advance counting_source)
       /\ forall y x, img_at out y x = (1, 2, 3).
Proof.
  repeat split; try reflexivity.
  eexists. split; [vm_compute; reflexivity|].
  intros y x. reflexivity.
Qed.

(** Every catalog is the catalog of its document. *)
Lemma traverse_map {A B : Type} (f : A -> option B) (g : B -> A) (l : list B) :
  (forall b, In b l -> f (g b) = Some b) -> traverse f (map g l) = Some l.
Proof.
  induction l as [|b l IH]; intros Hfg; [reflexivity|].
  simpl. rewrite (Hfg b (or_introl eq_refl)).
  rewrite IH by (intros b' Hb'; apply Hfg; now right). reflexivity.
Qed.

Lemma library_of_json_of_library (catalog : StyleLibrary) :
  library_of_json (json_of_library catalog) = Some catalog.
Proof.
  unfold json_of_library, library_of_json.
  apply traverse_map. intros [region styles] _. cbn [fst snd styles_of_json].
  rewrite traverse_map; [reflexivity|].
  intros [style options] _. cbn [fst snd options_of_json].
  rewrite traverse_map; [reflexivity|].
  intros rec _. reflexivity.
Qed.
